(** * ldc-shop: admin card-key actions and the chunked upload coordinator

    A shallow embedding of

    - [src/actions/admin.ts] (the Postgres build of the server actions),
    - the D1/SQLite build of the same server actions (the one that has
      [deleteAllCards] and sub-chunks its inserts), and
    - the [CardsContent] client component with [handleFileUpload],

    followed by the properties of card-key ingestion, deletion guards and
    authorisation that the specification states. *)

From Stdlib Require Import String Ascii.
From Stdlib Require Import List ZArith NArith Bool Lia.
From Stdlib Require Import Floats Uint63.
Import ListNotations.

Set Implicit Arguments.

(* ================================================================== *)
(** * JavaScript strings *)
(* ================================================================== *)

(** A JavaScript string is a sequence of UTF-16 code units. *)
Definition jsstring := list N.

(** ASCII literals, for writing examples. *)
Definition js (s : string) : jsstring :=
  map N_of_ascii (list_ascii_of_string s).

Definition jsstring_eqb (a b : jsstring) : bool :=
  if list_eq_dec N.eq_dec a b then true else false.

(** [c => c] used as a filter on strings: only the empty string is falsy. *)
Definition truthy (s : jsstring) : bool :=
  match s with [] => false | _ :: _ => true end.

(** ECMAScript [WhiteSpace]: TAB, VT, FF, SP, NBSP, ZWNBSP and category Zs. *)
Definition isWhiteSpace (c : N) : bool :=
  (existsb (N.eqb c) [9; 11; 12; 32; 160; 5760; 8239; 8287; 12288; 65279]
   || ((8192 <=? c) && (c <=? 8202)))%N.

(** ECMAScript [LineTerminator]: LF, CR, LS, PS. *)
Definition isLineTerminator (c : N) : bool :=
  existsb (N.eqb c) [10; 13; 8232; 8233]%N.

(** The characters [String.prototype.trim] strips. *)
Definition isStrWhiteSpaceChar (c : N) : bool :=
  isWhiteSpace c || isLineTerminator c.

Fixpoint trimStart (s : jsstring) : jsstring :=
  match s with
  | [] => []
  | c :: s' => if isStrWhiteSpaceChar c then trimStart s' else s
  end.

Definition trimEnd (s : jsstring) : jsstring := rev (trimStart (rev s)).

(** [String.prototype.trim]. *)
Definition trim (s : jsstring) : jsstring := trimEnd (trimStart s).

(** [s.split(sep)] for a one-character separator ([','] or the regular
    expression [/\n/]): the result always has at least one element, and the
    empty string splits into one empty string. *)
Fixpoint split (sep : N) (s : jsstring) : list jsstring :=
  match s with
  | [] => [[]]
  | c :: s' =>
      if N.eqb c sep then [] :: split sep s'
      else match split sep s' with
           | cur :: rest => (c :: cur) :: rest
           | [] => [[c]]
           end
  end.

Definition LF : N := 10%N.
Definition COMMA : N := 44%N.

(** [Array.prototype.slice(start, end)] on non-negative indices: both ends
    are clamped to the length, and an end before the start gives []. *)
Definition slice (A : Type) (start end_ : nat) (l : list A) : list A :=
  firstn (end_ - start) (skipn start l).

(** [xs.map(k => k.trim()).filter(k => k)]: the sanitisation shared by
    [addCards], [addCardsBatch] and [handleFileUpload]. *)
Definition trim_and_filter (xs : list jsstring) : list jsstring :=
  filter truthy (map trim xs).

(** [text.split(/\n/).map(c => c.trim()).filter(c => c)] *)
Definition normalize (text : jsstring) : list jsstring :=
  trim_and_filter (split LF text).

(* ================================================================== *)
(** * Numbers *)
(* ================================================================== *)

(** An integer below 2^53 as a JavaScript Number (an IEEE 754 double). *)
Definition number_of_nat (n : nat) : float :=
  PrimFloat.of_uint63 (Uint63.of_Z (Z.of_nat n)).

(** [Math.round] on a finite double: the nearest integer, ties towards
    +infinity, computed exactly from mantissa and exponent.  (Infinities and
    NaN, which a division by a positive length cannot give, are not
    integers and are mapped to 0.) *)
Definition Math_round (x : float) : Z :=
  match Prim2SF x with
  | S754_finite sign m e =>
      let n := ((if sign then -1 else 1) * Z.pos m)%Z in
      if (0 <=? e)%Z then (n * 2 ^ e)%Z
      else ((2 * n + 2 ^ (- e)) / 2 ^ (- e + 1))%Z
  | _ => 0%Z
  end.

(* ================================================================== *)
(** * The world the code runs in *)
(* ================================================================== *)

(** What [auth()] resolves to: [session?.user?.username]. *)
Record User := { username : option jsstring }.
Record Session := { user : option User }.

(** The host: the authorisation provider, [process.env.ADMIN_USERS], the
    clock read by [Date.now()] and by SQLite's [unixepoch()], and the
    built-in [String.prototype.toLowerCase], which is taken as given. *)
Record Host := {
  auth_session : option Session;
  ADMIN_USERS : option jsstring;
  clock_ms : Z;
  toLowerCase : jsstring -> jsstring
}.

(** Modelled from the spec: the [cards] table of [lib/db/schema], which is
    not among the sources.  A card key has a unique identifier, an owning
    product, an opaque key string, a used flag (default false, nullable in
    storage) and an optional reservation timestamp (milliseconds). *)
Record Card := {
  id : Z;
  productId : jsstring;
  cardKey : jsstring;
  isUsed : option bool;
  reservedAt : option Z
}.

(** The storage backend as the actions see it: the rows in insertion order,
    the counter that hands out identifiers, and whether the legacy unique
    index [cards_product_id_card_key_uq] on (product, key), which both builds
    try to drop before inserting, is still there. *)
Record Store := {
  cards : list Card;
  next_id : Z;
  cards_product_id_card_key_uq : bool
}.

(** Statements sent to the storage backend. *)
Inductive Stmt :=
| DropIndex
| InsertCards (pid : jsstring) (keys : list jsstring)
| SelectCard (cardId : Z)
| DeleteCard (cardId : Z)
| DeleteCardsWhere (pid : jsstring).

(** What a call can be rejected with: the errors the actions raise, the
    two ways the storage refuses an insert, a [null] or [undefined] thrown in
    place of an error object, and the [TypeError] of reading a property of
    such a value. *)
Inductive Error :=
| Unauthorized
| CardNotFound
| CannotDeleteUsed
| CannotDeleteReserved
| UniqueViolation
| InvalidText
| Nullish
| CannotReadMessage.

(** The character U+0022. *)
Definition double_quote : string :=
  String (Ascii false true false false false true false false) EmptyString.

(** [e.message], for a value that has one. *)
Definition message (e : Error) : string :=
  match e with
  | Unauthorized => "Unauthorized"
  | CardNotFound => "Card not found"
  | CannotDeleteUsed => "Cannot delete used card"
  | CannotDeleteReserved => "Cannot delete reserved card"
  | UniqueViolation => "UNIQUE constraint failed"
  | InvalidText =>
      String.append "invalid byte sequence for encoding "
        (String.append double_quote
           (String.append "UTF8" (String.append double_quote ": 0x00")))
  | Nullish => ""
  | CannotReadMessage => "Cannot read properties of null (reading 'message')"
  end.

(** Evaluating [e.message]: on [null] or [undefined] it throws. *)
Definition read_message (e : Error) : option string :=
  match e with
  | Nullish => None
  | _ => Some (message e)
  end.

(** What the client component does to its React state and to the page. *)
Inductive Toast :=
| NoCards
| ErrorMessage (msg : string)
| UploadSuccess (count : nat).

Inductive UIEvent :=
| SetUploading (b : bool)
| SetProgress (percent : Z)
| SetProcessedCount (n : nat)
| SetTotalCount (n : nat)
| ToastError (t : Toast)
| ToastSuccess (t : Toast)
| RouterRefresh
| ClearFileInput.

Record State := {
  db : Store;
  stmts : list Stmt;
  revalidated : list jsstring;
  ui : list UIEvent
}.

(* ================================================================== *)
(** * The monad of actions *)
(* ================================================================== *)

(** An action reads the host, updates the state, and either returns, throws,
    or (a loop whose index does not advance) never finishes. *)
Inductive Outcome (A : Type) :=
| Return (a : A)
| Throw (e : Error)
| Diverge.
Arguments Throw {A} e.
Arguments Diverge {A}.

Definition M (A : Type) := Host -> State -> Outcome A * State.

Definition ret {A} (a : A) : M A := fun _ s => (Return a, s).

Definition bind {A B} (m : M A) (k : A -> M B) : M B :=
  fun h s =>
    match m h s with
    | (Return a, s') => k a h s'
    | (Throw e, s') => (Throw e, s')
    | (Diverge, s') => (Diverge, s')
    end.

Definition throw {A} (e : Error) : M A := fun _ s => (Throw e, s).
Definition diverge {A} : M A := fun _ s => (Diverge, s).

Declare Scope action_scope.
Delimit Scope action_scope with action.
Notation "x <- m ;; k" := (bind m (fun x => k))
  (at level 61, m at next level, right associativity) : action_scope.
Notation "m ;; k" := (bind m (fun _ => k))
  (at level 61, right associativity) : action_scope.
Open Scope action_scope.

(** [try { m } catch (e) { handler e }] *)
Definition try_catch {A} (m : M A) (handler : Error -> M A) : M A :=
  fun h s =>
    match m h s with
    | (Throw e, s') => handler e h s'
    | r => r
    end.

(** [try { m } finally { f }] *)
Definition try_finally {A} (m : M A) (f : M unit) : M A :=
  fun h s =>
    match m h s with
    | (Diverge, s') => (Diverge, s')
    | (r, s') =>
        match f h s' with
        | (Return _, s'') => (r, s'')
        | (Throw e, s'') => (Throw e, s'')
        | (Diverge, s'') => (Diverge, s'')
        end
    end.

(** [for (let i = start; i < len; i += step) { acc = body(i, acc) }].  The
    fuel bounds the number of iterations; it is only exhausted when the
    JavaScript loop would not terminate. *)
Fixpoint for_loop {A} (fuel i len step : nat) (body : nat -> A -> M A)
    (acc : A) : M A :=
  if len <=? i then ret acc
  else match fuel with
       | O => diverge
       | S fuel' =>
           acc' <- body i acc ;;
           for_loop fuel' (i + step) len step body acc'
       end.

(** The values [i] takes in that loop. *)
Fixpoint offsets (fuel i len step : nat) : option (list nat) :=
  if len <=? i then Some []
  else match fuel with
       | O => None
       | S fuel' => option_map (cons i) (offsets fuel' (i + step) len step)
       end.

(** The batches [l.slice(i, i + size)] the loop cuts out of [l]. *)
Definition batches (A : Type) (size : nat) (l : list A) : option (list (list A)) :=
  option_map (map (fun i => slice i (i + size) l))
             (offsets (length l) 0 (length l) size).

(** Running a body over a list of indices, threading the accumulator. *)
Fixpoint foldM {A B} (body : B -> A -> M A) (l : list B) (acc : A) : M A :=
  match l with
  | [] => ret acc
  | x :: l' => acc' <- body x acc ;; foldM body l' acc'
  end.

(* ================================================================== *)
(** * Collaborators: auth, storage, cache invalidation, React state *)
(* ================================================================== *)

Definition auth : M (option Session) := fun h s => (Return (auth_session h), s).
Definition process_env_ADMIN_USERS : M (option jsstring) :=
  fun h s => (Return (ADMIN_USERS h), s).
Definition Date_now : M Z := fun h s => (Return (clock_ms h), s).
Definition String_toLowerCase (x : jsstring) : M jsstring :=
  fun h s => (Return (toLowerCase h x), s).

Definition log_stmt (q : Stmt) (s : State) : State :=
  {| db := db s; stmts := stmts s ++ [q];
     revalidated := revalidated s; ui := ui s |}.

Definition set_db (d : Store) (s : State) : State :=
  {| db := d; stmts := stmts s; revalidated := revalidated s; ui := ui s |}.

(** [revalidatePath(path)] *)
Definition revalidatePath (path : jsstring) : M unit :=
  fun _ s =>
    (Return tt,
     {| db := db s; stmts := stmts s;
        revalidated := revalidated s ++ [path]; ui := ui s |}).

Definition emit (e : UIEvent) : M unit :=
  fun _ s =>
    (Return tt,
     {| db := db s; stmts := stmts s;
        revalidated := revalidated s; ui := ui s ++ [e] |}).

(** [DROP INDEX IF EXISTS cards_product_id_card_key_uq] *)
Definition db_drop_index : M unit :=
  fun _ s =>
    let s1 := log_stmt DropIndex s in
    (Return tt,
     set_db {| cards := cards (db s1); next_id := next_id (db s1);
               cards_product_id_card_key_uq := false |} s1).

(** ** Text as the storage takes it

    Both backends hold text as UTF-8.  A JavaScript string is encoded on the
    way in, which turns every unpaired surrogate into U+FFFD, and the
    Postgres backend refuses a text value that contains U+0000. *)

Definition isHighSurrogate (c : N) : bool :=
  ((55296 <=? c) && (c <=? 56319))%N.

Definition isLowSurrogate (c : N) : bool :=
  ((56320 <=? c) && (c <=? 57343))%N.

(** The string read back after a UTF-8 round trip: surrogate pairs stay,
    every other surrogate becomes U+FFFD ([String.prototype.toWellFormed]). *)
Fixpoint toWellFormed (s : jsstring) : jsstring :=
  match s with
  | [] => []
  | c :: s' =>
      if isHighSurrogate c then
        match s' with
        | d :: s'' =>
            if isLowSurrogate d then c :: d :: toWellFormed s''
            else 65533%N :: toWellFormed s'
        | [] => [65533%N]
        end
      else if isLowSurrogate c then 65533%N :: toWellFormed s'
      else c :: toWellFormed s'
  end.

(** The storage behind [db]: Postgres for [src/actions/admin.ts], D1 (SQLite)
    for the build with [deleteAllCards]. *)
Inductive Backend := PostgresBackend | D1Backend.

(** A text value the backend refuses (Postgres: invalid byte sequence for
    encoding UTF8: 0x00). *)
Definition refuses_text (b : Backend) (k : jsstring) : bool :=
  match b with
  | PostgresBackend => existsb (N.eqb 0) k
  | D1Backend => false
  end.

(** The rows one multi-row insert creates: [productId] is given, [cardKey]
    is the key as the storage holds it, the used flag takes its default and
    there is no reservation. *)
Fixpoint new_rows (first_id : Z) (pid : jsstring) (keys : list jsstring)
  : list Card :=
  match keys with
  | [] => []
  | k :: keys' =>
      {| id := first_id; productId := pid; cardKey := toWellFormed k;
         isUsed := Some false; reservedAt := None |}
      :: new_rows (first_id + 1) pid keys'
  end.

Fixpoint has_duplicate (keys : list jsstring) : bool :=
  match keys with
  | [] => false
  | k :: keys' => existsb (jsstring_eqb k) keys' || has_duplicate keys'
  end.

(** Whether inserting [keys] for [pid] would break the legacy unique index. *)
Definition violates_uq (d : Store) (pid : jsstring) (keys : list jsstring)
  : bool :=
  cards_product_id_card_key_uq d
  && (has_duplicate keys
      || existsb (fun c => jsstring_eqb (productId c) pid
                           && existsb (jsstring_eqb (cardKey c)) keys)
                 (cards d)).

(** [db.insert(cards).values(keys.map(key => ({ productId, cardKey: key })))]:
    one statement; it fails as a whole, storing nothing, if the backend
    refuses the product id or one of the keys, or if the legacy index is
    violated.  The number of rows of one statement is not bounded here. *)
Definition db_insert_cards (b : Backend) (pid : jsstring)
    (keys : list jsstring) : M unit :=
  fun _ s =>
    let s1 := log_stmt (InsertCards pid keys) s in
    let d := db s1 in
    if existsb (refuses_text b) (pid :: keys) then (Throw InvalidText, s1)
    else if violates_uq d pid (map toWellFormed keys)
    then (Throw UniqueViolation, s1)
    else
      (Return tt,
       set_db {| cards := cards d ++ new_rows (next_id d) pid keys;
                 next_id := next_id d + Z.of_nat (length keys);
                 cards_product_id_card_key_uq :=
                   cards_product_id_card_key_uq d |} s1).

(** [db.query.cards.findFirst({ where: eq(cards.id, cardId) })] *)
Definition db_find_card (cardId : Z) : M (option Card) :=
  fun _ s =>
    let s1 := log_stmt (SelectCard cardId) s in
    (Return (find (fun c => Z.eqb (id c) cardId) (cards (db s1))), s1).

(** [db.delete(cards).where(eq(cards.id, cardId))] *)
Definition db_delete_card (cardId : Z) : M unit :=
  fun _ s =>
    let s1 := log_stmt (DeleteCard cardId) s in
    let d := db s1 in
    (Return tt,
     set_db {| cards := filter (fun c => negb (Z.eqb (id c) cardId)) (cards d);
               next_id := next_id d;
               cards_product_id_card_key_uq :=
                 cards_product_id_card_key_uq d |} s1).

(** SQLite's [unixepoch()]: whole seconds since the epoch. *)
Definition unixepoch (h : Host) : Z := (clock_ms h / 1000)%Z.

(** The WHERE clause of [deleteAllCards]:
    [product_id = pid AND COALESCE(is_used, 0) = 0
     AND (reserved_at IS NULL OR reserved_at < (unixepoch() * 1000) - 60000)] *)
Definition delete_all_where (h : Host) (pid : jsstring) (c : Card) : bool :=
  jsstring_eqb (productId c) pid
  && negb (match isUsed c with Some b => b | None => false end)
  && match reservedAt c with
     | None => true
     | Some t => (t <? unixepoch h * 1000 - 60000)%Z
     end.

(** [db.delete(cards).where(sql`...`).returning({ id: cards.id })] *)
Definition db_delete_cards_where (pid : jsstring) : M (list Z) :=
  fun h s =>
    let s1 := log_stmt (DeleteCardsWhere pid) s in
    let d := db s1 in
    (Return (map id (filter (delete_all_where h pid) (cards d))),
     set_db {| cards := filter (fun c => negb (delete_all_where h pid c))
                               (cards d);
               next_id := next_id d;
               cards_product_id_card_key_uq :=
                 cards_product_id_card_key_uq d |} s1).

(* ================================================================== *)
(** * Server actions common to both builds *)
(* ================================================================== *)

(** [process.env.ADMIN_USERS?.toLowerCase().split(',') || []] *)
Definition adminUsers (h : Host) : list jsstring :=
  match ADMIN_USERS h with
  | Some v => split COMMA (toLowerCase h v)
  | None => []
  end.

(** [adminUsers.includes(x)] *)
Definition includes (l : list jsstring) (x : jsstring) : bool :=
  existsb (jsstring_eqb x) l.

Definition checkAdmin : M unit :=
  session <- auth ;;
  let user := match session with Some se => user se | None => None end in
  env <- process_env_ADMIN_USERS ;;
  adminUsers <-
    match env with
    | Some v => lower <- String_toLowerCase v ;; ret (split COMMA lower)
    | None => ret []
    end ;;
  match user with
  | None => throw Unauthorized
  | Some u =>
      match username u with
      | None => throw Unauthorized
      | Some name =>
          if negb (truthy name) then throw Unauthorized
          else
            lower <- String_toLowerCase name ;;
            if negb (includes adminUsers lower) then throw Unauthorized
            else ret tt
      end
  end.

(** [try { await db.run(sql`DROP INDEX IF EXISTS ...`) } catch { }] *)
Definition drop_legacy_index_best_effort : M unit :=
  try_catch db_drop_index (fun _ => ret tt).

Definition revalidate_card_pages (pid : jsstring) : M unit :=
  revalidatePath (js "/admin") ;;
  revalidatePath (js "/admin/cards/" ++ pid) ;;
  revalidatePath (js "/").

(** [deleteCard(cardId)], the same text in both builds. *)
Definition deleteCard (cardId : Z) : M unit :=
  checkAdmin ;;
  card <- db_find_card cardId ;;
  match card with
  | None => throw CardNotFound
  | Some c =>
      if match isUsed c with Some b => b | None => false end
      then throw CannotDeleteUsed
      else
        now <- Date_now ;;
        if match reservedAt c with
           | Some t => (t >? now - 60 * 1000)%Z
           | None => false
           end
        then throw CannotDeleteReserved
        else
          db_delete_card cardId ;;
          revalidatePath (js "/admin") ;;
          revalidatePath (js "/admin/cards") ;;
          revalidatePath (js "/")
  end.

(* ================================================================== *)
(** * The Postgres build: [src/actions/admin.ts] *)
(* ================================================================== *)

Module Postgres.

Definition addCards (productId rawCards : jsstring) : M unit :=
  checkAdmin ;;
  let cardList := normalize rawCards in
  if (length cardList =? 0)%nat then ret tt
  else
    drop_legacy_index_best_effort ;;
    db_insert_cards PostgresBackend productId cardList ;;
    revalidate_card_pages productId.

Definition addCardsBatch (productId : jsstring) (cardKeys : list jsstring)
  : M nat :=
  checkAdmin ;;
  let validKeys := trim_and_filter cardKeys in
  if (length validKeys =? 0)%nat then ret 0%nat
  else
    drop_legacy_index_best_effort ;;
    db_insert_cards PostgresBackend productId validKeys ;;
    revalidate_card_pages productId ;;
    ret (length validKeys).

End Postgres.

(* ================================================================== *)
(** * The D1 build: sub-chunked inserts and [deleteAllCards] *)
(* ================================================================== *)

Module D1.

(** "D1 has a limit on SQL variables": the writer's own chunk size. *)
Definition BATCH_SIZE : nat := 10.

(** [for (let i = 0; i < keys.length; i += BATCH_SIZE)
       await db.insert(cards).values(keys.slice(i, i + BATCH_SIZE)...)] *)
Definition insert_in_chunks (productId : jsstring) (keys : list jsstring)
  : M unit :=
  for_loop (length keys) 0 (length keys) BATCH_SIZE
    (fun i _ =>
       let batch := slice i (i + BATCH_SIZE) keys in
       db_insert_cards D1Backend productId batch)
    tt.

Definition addCards (productId rawCards : jsstring) : M unit :=
  checkAdmin ;;
  let cardList := normalize rawCards in
  if (length cardList =? 0)%nat then ret tt
  else
    drop_legacy_index_best_effort ;;
    insert_in_chunks productId cardList ;;
    revalidate_card_pages productId.

Definition addCardsBatch (productId : jsstring) (cardKeys : list jsstring)
  : M nat :=
  checkAdmin ;;
  let validKeys := trim_and_filter cardKeys in
  if (length validKeys =? 0)%nat then ret 0%nat
  else
    drop_legacy_index_best_effort ;;
    insert_in_chunks productId validKeys ;;
    revalidate_card_pages productId ;;
    ret (length validKeys).

Definition deleteAllCards (productId : jsstring) : M nat :=
  checkAdmin ;;
  result <- db_delete_cards_where productId ;;
  revalidate_card_pages productId ;;
  ret (length result).

End D1.

(* ================================================================== *)
(** * The client component: [CardsContent] *)
(* ================================================================== *)

Module Client.

(** The coordinator's transport-level batch size. *)
Definition BATCH_SIZE : nat := 50.

(** [Math.round(((i + BATCH_SIZE) / cardList.length) * 100)] *)
Definition progress_percent (i len : nat) : Z :=
  Math_round
    (PrimFloat.mul
       (PrimFloat.div (number_of_nat (i + BATCH_SIZE)) (number_of_nat len))
       (number_of_nat 100)).

Section Component.

(** The server action the component imports from "@/actions/admin", and
    the [productId] prop. *)
Variable addCardsBatch : jsstring -> list jsstring -> M nat.
Variable productId : jsstring.

(** One turn of the upload loop. *)
Definition upload_batch (cardList : list jsstring) (i successCount : nat)
  : M nat :=
  let batch := slice i (i + BATCH_SIZE) cardList in
  result <- addCardsBatch productId batch ;;
  emit (SetProcessedCount (Nat.min (i + BATCH_SIZE) (length cardList))) ;;
  emit (SetProgress (progress_percent i (length cardList))) ;;
  ret (successCount + result)%nat.

(** [handleFileUpload]; [file] is [event.target.files?.[0]] with its
    text already read. *)
Definition handleFileUpload (file : option jsstring) : M unit :=
  match file with
  | None => ret tt
  | Some text =>
      emit (SetUploading true) ;;
      emit (SetProgress 0) ;;
      emit (SetProcessedCount 0) ;;
      emit (SetTotalCount 0) ;;
      try_finally
        (try_catch
           (let cardList := normalize text in
            if (length cardList =? 0)%nat then
              emit (ToastError NoCards) ;;
              emit (SetUploading false)
            else
              emit (SetTotalCount (length cardList)) ;;
              successCount <-
                for_loop (length cardList) 0 (length cardList) BATCH_SIZE
                         (upload_batch cardList) 0%nat ;;
              emit (ToastSuccess (UploadSuccess successCount)) ;;
              emit RouterRefresh)
           (fun e =>
              match read_message e with
              | Some msg => emit (ToastError (ErrorMessage msg))
              | None => throw CannotReadMessage
              end))
        (emit (SetUploading false) ;;
         emit (SetProgress 0) ;;
         emit (SetProcessedCount 0) ;;
         emit (SetTotalCount 0) ;;
         emit ClearFileInput)
  end.

End Component.

End Client.

(* ================================================================== *)
(** * Vocabulary of the specification *)
(* ================================================================== *)

(** The caller's handle, [session?.user?.username]. *)
Definition handle (h : Host) : option jsstring :=
  match auth_session h with
  | Some se => match user se with Some u => username u | None => None end
  | None => None
  end.

(** Membership of a handle in the configured allow-list, compared in lower
    case on both sides. *)
Definition allow_listed (h : Host) (name : jsstring) : Prop :=
  In (toLowerCase h name) (adminUsers h).

(** The caller is a recognised administrator. *)
Definition is_admin (h : Host) : bool :=
  match handle h with
  | Some name => truthy name && includes (adminUsers h) (toLowerCase h name)
  | None => false
  end.

(** [lines.join(sep)] for a one-character separator. *)
Fixpoint join (sep : N) (lines : list jsstring) : jsstring :=
  match lines with
  | [] => []
  | [l] => l
  | l :: rest => l ++ sep :: join sep rest
  end.

(** The used flag read as a condition: false and NULL both count as unused. *)
Definition used (c : Card) : bool :=
  match isUsed c with Some b => b | None => false end.

(** Follows the spec's words for bulk deletion: a row of the product whose
    used flag is false or absent and whose reservation is absent or older
    than 60 seconds at time [now] (milliseconds). *)
Definition spec_deletable (now : Z) (pid : jsstring) (c : Card) : bool :=
  jsstring_eqb (productId c) pid
  && negb (used c)
  && match reservedAt c with
     | None => true
     | Some t => (60 * 1000 <? now - t)%Z
     end.

(** The rows of one product. *)
Definition rows_of (pid : jsstring) (d : Store) : list Card :=
  filter (fun c => jsstring_eqb (productId c) pid) (cards d).

(** The number of keys each insert statement of a log carries. *)
Fixpoint insert_sizes (l : list Stmt) : list nat :=
  match l with
  | [] => []
  | InsertCards _ keys :: l' => length keys :: insert_sizes l'
  | _ :: l' => insert_sizes l'
  end.

(** Errors the deletion guard reports as a conflict. *)
Definition is_conflict (e : Error) : Prop :=
  e = CannotDeleteUsed \/ e = CannotDeleteReserved.


(** A string that does not start with a character [trim] strips. *)
Definition starts_clean (s : jsstring) : Prop :=
  match s with [] => True | c :: _ => isStrWhiteSpaceChar c = false end.

(** A sanitised key: non-empty and untouched by [trim]. *)
Definition clean_key (k : jsstring) : Prop := trim k = k /\ k <> [].

(** A key without U+0000, and a key the storage holds as it is: without
    U+0000 and without an unpaired surrogate. *)
Definition nul_free (k : jsstring) : Prop := ~ In 0%N k.


(** All keys the insert statements of a log carry, in order. *)
Fixpoint inserted_keys (l : list Stmt) : list jsstring :=
  match l with
  | [] => []
  | InsertCards _ keys :: l' => keys ++ inserted_keys l'
  | _ :: l' => inserted_keys l'
  end.

(** Follows the spec's words for the progress of an upload: after the batch
    at offset [i], [processed = min(i + batchSize, total)] and
    [percent = round(processed / total * 100)]. *)
Definition spec_processed (i total : nat) : nat :=
  Nat.min (i + Client.BATCH_SIZE) total.

Definition spec_percent (i total : nat) : Z :=
  Math_round
    (PrimFloat.mul
       (PrimFloat.div (number_of_nat (spec_processed i total))
                      (number_of_nat total))
       (number_of_nat 100)).

(** ** A concrete host and store for worked examples *)

(** [toLowerCase] restricted to ASCII letters. *)
Definition ascii_toLowerCase (s : jsstring) : jsstring :=
  map (fun c => if ((65 <=? c) && (c <=? 90))%N then (c + 32)%N else c) s.

Definition host_of (name : option jsstring) (env : option jsstring)
    (now : Z) : Host :=
  {| auth_session := Some {| user := Some {| username := name |} |};
     ADMIN_USERS := env;
     clock_ms := now;
     toLowerCase := ascii_toLowerCase |}.

(** Alice is signed in and listed (in another letter case). *)
Definition alice : Host :=
  host_of (Some (js "Alice")) (Some (js "bob,ALICE")) 1000500.

(** Mallory is signed in and not listed. *)
Definition mallory : Host :=
  host_of (Some (js "mallory")) (Some (js "bob,ALICE")) 1000500.

Definition state_of (rows : list Card) (next : Z) (uq : bool) : State :=
  {| db := {| cards := rows; next_id := next;
              cards_product_id_card_key_uq := uq |};
     stmts := []; revalidated := []; ui := [] |}.

Definition empty_state : State := state_of [] 1 true.

Definition row (i : Z) (pid key : string) (u : option bool)
    (r : option Z) : Card :=
  {| id := i; productId := js pid; cardKey := js key;
     isUsed := u; reservedAt := r |}.

(* ================================================================== *)
(** * [saveShopName], the same logic in both builds *)
(* ================================================================== *)

Module Settings.

(** [hay.startsWith(needle)] and [hay.includes(needle)]. *)
Fixpoint startsWith (hay needle : jsstring) : bool :=
  match needle, hay with
  | [], _ => true
  | _ :: _, [] => false
  | a :: needle', b :: hay' => N.eqb a b && startsWith hay' needle'
  end.

Fixpoint string_includes (hay needle : jsstring) : bool :=
  startsWith hay needle
  || match hay with
     | [] => false
     | _ :: hay' => string_includes hay' needle
     end.

(** What the [catch] block looks at in the error it caught:
    [error.message], [error.code] and [JSON.stringify(error)]. *)
Record CaughtError := {
  error_message : option jsstring;
  error_code : option jsstring;
  error_json : jsstring
}.

(** [error.message?.includes('does not exist') || error.code === '42P01'
     || JSON.stringify(error).includes('42P01')] *)
Definition settings_table_missing (error : CaughtError) : bool :=
  match error_message error with
  | Some m => string_includes m (js "does not exist")
  | None => false
  end
  || match error_code error with
     | Some c => jsstring_eqb c (js "42P01")
     | None => false
     end
  || string_includes (error_json error) (js "42P01").

(** How a call of [saveShopName] ends: it returns, [checkAdmin] throws,
    the name is rejected with a message, or a storage error propagates. *)
Inductive SaveOutcome :=
| Saved
| Refused (e : Error)
| Invalid (msg : string)
| Failed (error : CaughtError).

Section SettingsStorage.

(** The settings storage, [setSetting] of [lib/db/queries] and the
    [CREATE TABLE IF NOT EXISTS settings] statement are taken as given:
    each either succeeds or throws, and may change the storage. *)
Variable Storage : Type.
Variable setSetting :
  jsstring -> jsstring -> Storage -> option CaughtError * Storage.
Variable create_settings_table : Storage -> option CaughtError * Storage.

(** [try { await setSetting('shop_name', name) } catch (error) { ... }] *)
Definition set_shop_name (name : jsstring) (t : Storage)
  : option CaughtError * Storage :=
  match setSetting (js "shop_name") name t with
  | (None, t1) => (None, t1)
  | (Some error, t1) =>
      if settings_table_missing error then
        match create_settings_table t1 with
        | (None, t2) => setSetting (js "shop_name") name t2
        | (Some error2, t2) => (Some error2, t2)
        end
      else (Some error, t1)
  end.

Definition saveShopName (rawName : jsstring) (h : Host) (s : State)
    (t : Storage) : SaveOutcome * State * Storage :=
  match checkAdmin h s with
  | (Return _, s0) =>
      let name := trim rawName in
      if negb (truthy name) then (Invalid "Shop name cannot be empty", s0, t)
      else if 64 <? length name then (Invalid "Shop name is too long", s0, t)
      else
        match set_shop_name name t with
        | (Some error, t') => (Failed error, s0, t')
        | (None, t') =>
            (Saved,
             snd ((revalidatePath (js "/") ;; revalidatePath (js "/admin"))
                    h s0),
             t')
        end
  | (Throw e, s0) => (Refused e, s0, t)
  | (Diverge, s0) => (Refused Unauthorized, s0, t) (* [checkAdmin] ends *)
  end.

End SettingsStorage.

(** A storage for worked examples: the settings as a list of pairs, or no
    table at all. *)
Definition demo_setSetting (k v : jsstring)
    (t : option (list (jsstring * jsstring)))
  : option CaughtError * option (list (jsstring * jsstring)) :=
  match t with
  | Some rows => (None, Some ((k, v) :: rows))
  | None =>
      (Some {| error_message := Some (js "relation settings does not exist");
               error_code := None; error_json := js "{}" |}, None)
  end.

Definition demo_create (t : option (list (jsstring * jsstring)))
  : option CaughtError * option (list (jsstring * jsstring)) :=
  match t with
  | Some rows => (None, Some rows)
  | None => (None, Some [])
  end.

End Settings.

(* ================================================================== *)
(** * Vocabulary for the further properties *)
(* ================================================================== *)

(** A string made only of characters that [trim] strips (the empty string
    included). *)
Definition all_white (s : jsstring) : bool := forallb isStrWhiteSpaceChar s.

(** Identifiers are unique and below the counter that hands them out. *)
Definition store_wf (d : Store) : Prop :=
  NoDup (map id (cards d))
  /\ forall c, In c (cards d) -> (id c < next_id d)%Z.

(** The offsets [0, size, 2 size, ...] of the batches of a list of [total]
    elements: one per started run of [size] elements. *)
Definition batch_offsets (size total : nat) : list nat :=
  map (fun k => k * size) (seq 0 ((total + size - 1) / size)).

(** The statements one call of [addCardsBatch] sends for a non-empty list of
    sanitised keys, in each build. *)
Definition Postgres_sent (pid : jsstring) (keys : list jsstring)
  : list Stmt :=
  [DropIndex; InsertCards pid keys].

Definition D1_sent (pid : jsstring) (keys : list jsstring) : list Stmt :=
  DropIndex
  :: map (fun i => InsertCards pid (slice i (i + D1.BATCH_SIZE) keys))
         (batch_offsets D1.BATCH_SIZE (length keys)).

(** The pages every card mutation of a product invalidates. *)
Definition card_pages (pid : jsstring) : list jsstring :=
  [js "/admin"; js "/admin/cards/" ++ pid; js "/"].

(** A server action that, for an administrator, a product id and a
    non-empty list of sanitised keys its storage accepts, stores them all
    and sends the statements [sent]. *)
Definition sends_batch (accepted : jsstring -> Prop) (h : Host)
    (f : jsstring -> list jsstring -> M nat)
    (sent : jsstring -> list jsstring -> list Stmt) : Prop :=
  forall pid keys s,
    Forall clean_key keys -> Forall accepted (pid :: keys) -> keys <> [] ->
    f pid keys h s
    = (Return (length keys),
       {| db := {| cards := cards (db s)
                            ++ new_rows (next_id (db s)) pid keys;
                   next_id := next_id (db s) + Z.of_nat (length keys);
                   cards_product_id_card_key_uq := false |};
          stmts := stmts s ++ sent pid keys;
          revalidated := revalidated s ++ card_pages pid;
          ui := ui s |}).


(** An outcome with its value dropped: what is left of a server action's
    result when the caller ignores the value. *)
Definition void (A : Type) (o : Outcome A) : Outcome unit :=
  match o with
  | Return _ => Return tt
  | Throw e => Throw e
  | Diverge => Diverge
  end.


(** An action that, whatever it does, keeps a property of the stored rows. *)
Definition preserves (A : Type) (P : Store -> Prop) (m : M A) : Prop :=
  forall h s, P (db s) -> P (db (snd (m h s))).

(** What [handleFileUpload] does to the React state around the upload
    itself. *)
Definition start_events : list UIEvent :=
  [SetUploading true; SetProgress 0; SetProcessedCount 0; SetTotalCount 0].

Definition reset_events : list UIEvent :=
  [SetUploading false; SetProgress 0; SetProcessedCount 0; SetTotalCount 0;
   ClearFileInput].

(** The two state updates after the batch at offset [i]. *)
Definition progress_events (total i : nat) : list UIEvent :=
  [SetProcessedCount (Nat.min (i + Client.BATCH_SIZE) total);
   SetProgress (Client.progress_percent i total)].

(** The statements a whole upload sends: those of each call, call after
    call. *)
Definition upload_sent (sent : jsstring -> list jsstring -> list Stmt)
    (pid : jsstring) (keys : list jsstring) : list Stmt :=
  flat_map (fun i => sent pid (slice i (i + Client.BATCH_SIZE) keys))
           (batch_offsets Client.BATCH_SIZE (length keys)).

(* ================================================================== *)
(** * Strings: equality, trimming, splitting *)
(* ================================================================== *)

Unset Implicit Arguments.

Lemma jsstring_eqb_eq (a b : jsstring) : jsstring_eqb a b = true <-> a = b.
Proof.
  unfold jsstring_eqb. destruct (list_eq_dec N.eq_dec a b); split; congruence.
Qed.

Lemma jsstring_eqb_refl (a : jsstring) : jsstring_eqb a a = true.
Proof. now apply jsstring_eqb_eq. Qed.

Lemma truthy_nonempty (s : jsstring) : truthy s = true <-> s <> [].
Proof. destruct s; simpl; split; congruence. Qed.

Lemma trimStart_clean (s : jsstring) : starts_clean (trimStart s).
Proof.
  induction s as [|c s IH]; simpl; [exact I|].
  destruct (isStrWhiteSpaceChar c) eqn:E; [exact IH | exact E].
Qed.

Lemma trimStart_fixed (s : jsstring) : starts_clean s -> trimStart s = s.
Proof. destruct s as [|c s]; simpl; [reflexivity|]. now intros ->. Qed.

(** What [trimStart] removes is a prefix: the result is a suffix of [s]. *)
Lemma trimStart_suffix (s : jsstring) : exists p, s = p ++ trimStart s.
Proof.
  induction s as [|c s [p IH]]; simpl.
  - now exists [].
  - destruct (isStrWhiteSpaceChar c).
    + exists (c :: p). simpl. now f_equal.
    + now exists [].
Qed.

(** [trimEnd] keeps a prefix, so it keeps a clean start. *)
Lemma trimEnd_prefix (s : jsstring) : exists q, s = trimEnd s ++ q.
Proof.
  unfold trimEnd. destruct (trimStart_suffix (rev s)) as [p Hp].
  exists (rev p). rewrite <- rev_app_distr, <- Hp. now rewrite rev_involutive.
Qed.

Lemma trimEnd_starts_clean (s : jsstring) :
  starts_clean s -> starts_clean (trimEnd s).
Proof.
  intros H. destruct (trimEnd_prefix s) as [q Hq].
  destruct (trimEnd s) as [|c t] eqn:E; [exact I|].
  rewrite Hq in H. exact H.
Qed.

Lemma trimEnd_idempotent (s : jsstring) : trimEnd (trimEnd s) = trimEnd s.
Proof.
  unfold trimEnd. rewrite rev_involutive.
  now rewrite (trimStart_fixed _ (trimStart_clean (rev s))).
Qed.

Lemma trim_idempotent (s : jsstring) : trim (trim s) = trim s.
Proof.
  unfold trim.
  rewrite (trimStart_fixed _ (trimEnd_starts_clean _ (trimStart_clean s))).
  apply trimEnd_idempotent.
Qed.

Lemma trim_and_filter_clean (xs : list jsstring) :
  Forall clean_key (trim_and_filter xs).
Proof.
  unfold trim_and_filter. apply Forall_forall. intros k Hk.
  apply filter_In in Hk. destruct Hk as [Hin Ht].
  apply in_map_iff in Hin. destruct Hin as [x [<- _]].
  split; [apply trim_idempotent | now apply truthy_nonempty].
Qed.

Lemma trim_and_filter_fixed (ks : list jsstring) :
  Forall clean_key ks -> trim_and_filter ks = ks.
Proof.
  unfold trim_and_filter.
  induction 1 as [|k ks [Ht Hne] _ IH]; simpl; [reflexivity|].
  rewrite Ht. apply truthy_nonempty in Hne. rewrite Hne. now f_equal.
Qed.

Lemma trim_and_filter_idempotent (xs : list jsstring) :
  trim_and_filter (trim_and_filter xs) = trim_and_filter xs.
Proof. apply trim_and_filter_fixed, trim_and_filter_clean. Qed.

Lemma In_slice {A : Type} (i j : nat) (l : list A) (x : A) :
  In x (slice i j l) -> In x l.
Proof.
  unfold slice. intros H.
  rewrite <- (firstn_skipn i l). apply in_or_app. right.
  rewrite <- (firstn_skipn (j - i) (skipn i l)). apply in_or_app. now left.
Qed.

Lemma slice_clean (ks : list jsstring) (i j : nat) :
  Forall clean_key ks -> Forall clean_key (slice i j ks).
Proof.
  intros H. apply Forall_forall. intros k Hk.
  apply In_slice in Hk. revert k Hk. now apply Forall_forall.
Qed.

(** ** [split] and [join] *)

Lemma split_nonempty (sep : N) (s : jsstring) : split sep s <> [].
Proof.
  destruct s as [|c s]; simpl; [discriminate|].
  destruct (N.eqb c sep); [discriminate|].
  destruct (split sep s); discriminate.
Qed.

Lemma join_cons (sep : N) (l : jsstring) (rest : list jsstring) :
  rest <> [] -> join sep (l :: rest) = l ++ sep :: join sep rest.
Proof. destruct rest; [congruence | reflexivity]. Qed.

(** Joining the pieces with the separator gives the text back: [split]
    removes separators and nothing else. *)
Lemma join_split (sep : N) (s : jsstring) : join sep (split sep s) = s.
Proof.
  induction s as [|c s IH]; [reflexivity|].
  cbn [split]. destruct (N.eqb c sep) eqn:E.
  - apply N.eqb_eq in E. subst c.
    rewrite join_cons by apply split_nonempty. now rewrite IH.
  - pose proof (split_nonempty sep s) as Hne.
    destruct (split sep s) as [|cur rest]; [congruence|].
    destruct rest as [|r rest'].
    + simpl in *. now f_equal.
    + change (join sep ((c :: cur) :: r :: rest'))
        with (c :: (cur ++ sep :: join sep (r :: rest'))).
      f_equal. exact IH.
Qed.

(** No piece contains the separator. *)
Lemma split_pieces_free (sep : N) (s : jsstring) :
  Forall (fun l => ~ In sep l) (split sep s).
Proof.
  induction s as [|c s IH]; cbn [split].
  - constructor; [intros [] | constructor].
  - destruct (N.eqb c sep) eqn:E.
    + constructor; [intros [] | exact IH].
    + apply N.eqb_neq in E.
      destruct (split sep s) as [|cur rest].
      * constructor; [|constructor]. intros [H|[]]. congruence.
      * inversion IH as [|? ? Hcur Hrest]; subst.
        constructor; [|exact Hrest]. intros [H|H]; [congruence | tauto].
Qed.

Lemma split_free (sep : N) (l : jsstring) :
  ~ In sep l -> split sep l = [l].
Proof.
  induction l as [|c l IH]; intros H; [reflexivity|].
  cbn [split]. destruct (N.eqb c sep) eqn:E.
  - apply N.eqb_eq in E. subst. exfalso. apply H. now left.
  - rewrite IH; [reflexivity|]. intros Hin. apply H. now right.
Qed.

Lemma split_app_sep (sep : N) (l rest : jsstring) :
  ~ In sep l -> split sep (l ++ sep :: rest) = l :: split sep rest.
Proof.
  induction l as [|c l IH]; intros H.
  - simpl. now rewrite N.eqb_refl.
  - cbn [app split]. destruct (N.eqb c sep) eqn:E.
    + apply N.eqb_eq in E. subst. exfalso. apply H. now left.
    + rewrite IH; [reflexivity|]. intros Hin. apply H. now right.
Qed.

(** [split] cuts at every separator and only there: separator-free pieces
    joined by the separator split back into the same pieces. *)
Lemma split_join (sep : N) (lines : list jsstring) :
  lines <> [] -> Forall (fun l => ~ In sep l) lines ->
  split sep (join sep lines) = lines.
Proof.
  induction lines as [|l rest IH]; intros Hne Hfree; [congruence|].
  inversion Hfree as [|? ? Hl Hrest]; subst.
  destruct rest as [|r rest'].
  - simpl. now apply split_free.
  - rewrite join_cons by discriminate.
    rewrite split_app_sep by exact Hl.
    f_equal. apply IH; [discriminate | exact Hrest].
Qed.

(* ================================================================== *)
(** * The batching loop *)
(* ================================================================== *)

Lemma slice_from (A : Type) (i size : nat) (l : list A) :
  slice i (i + size) l = firstn size (skipn i l).
Proof. unfold slice. f_equal. lia. Qed.

(** With a positive step and fuel for every element left, the loop ends. *)
Lemma offsets_total (step : nat) (Hpos : 0 < step) (len fuel i : nat) :
  len - i <= fuel -> exists os, offsets fuel i len step = Some os.
Proof.
  revert i. induction fuel as [|fuel IH]; intros i Hfuel; simpl.
  - destruct (len <=? i) eqn:E; [now exists []|].
    apply Nat.leb_gt in E. lia.
  - destruct (len <=? i) eqn:E; [now exists []|].
    apply Nat.leb_gt in E.
    destruct (IH (i + step)) as [os Hos]; [lia|].
    exists (i :: os). now rewrite Hos.
Qed.

(** The indices are [i], [i + step], [i + 2 step], ... up to the last one
    below [len]. *)
Lemma offsets_spec (step len fuel : nat) :
  forall i os, offsets fuel i len step = Some os ->
    (forall k, k < length os -> nth k os 0 = i + k * step)
    /\ (forall k, k < length os -> i + k * step < len)
    /\ len <= i + length os * step.
Proof.
  induction fuel as [|fuel IH]; intros i os; simpl.
  - destruct (len <=? i) eqn:E; [|discriminate].
    apply Nat.leb_le in E. intros [= <-]. simpl.
    repeat split; intros; lia.
  - destruct (len <=? i) eqn:E.
    + apply Nat.leb_le in E. intros [= <-]. simpl.
      repeat split; intros; lia.
    + apply Nat.leb_gt in E.
      destruct (offsets fuel (i + step) len step) as [os'|] eqn:Hos;
        [|discriminate].
      intros [= <-]. destruct (IH _ _ Hos) as (Hnth & Hlt & Hend).
      simpl. repeat split.
      * intros [|k] Hk; [lia|]. rewrite Hnth by lia. lia.
      * intros [|k] Hk; [lia|]. specialize (Hlt k). lia.
      * lia.
Qed.

(** The batches, one after the other, are the list from [i] on. *)
Lemma concat_slices (A : Type) (l : list A) (step fuel : nat) :
  forall i os, offsets fuel i (length l) step = Some os ->
    concat (map (fun o => slice o (o + step) l) os) = skipn i l.
Proof.
  induction fuel as [|fuel IH]; intros i os; simpl.
  - destruct (length l <=? i) eqn:E; [|discriminate].
    apply Nat.leb_le in E. intros [= <-]. simpl.
    now rewrite skipn_all2.
  - destruct (length l <=? i) eqn:E.
    + apply Nat.leb_le in E. intros [= <-]. simpl. now rewrite skipn_all2.
    + destruct (offsets fuel (i + step) (length l) step) as [os'|] eqn:Hos;
        [|discriminate].
      intros [= <-]. simpl. rewrite (IH _ _ Hos), slice_from.
      replace (skipn (i + step) l) with (skipn step (skipn i l));
        [apply firstn_skipn|].
      rewrite skipn_skipn. f_equal. lia.
Qed.

(** The loop runs its body at the indices [offsets] lists, in order. *)
Lemma for_loop_foldM (A : Type) (body : nat -> A -> M A) (step len fuel : nat) :
  forall i os acc h s,
    offsets fuel i len step = Some os ->
    for_loop fuel i len step body acc h s = foldM body os acc h s.
Proof.
  induction fuel as [|fuel IH]; intros i os acc h s; simpl.
  - destruct (len <=? i); [|discriminate]. now intros [= <-].
  - destruct (len <=? i); [now intros [= <-]|].
    destruct (offsets fuel (i + step) len step) as [os'|] eqn:Hos;
      [|discriminate].
    intros [= <-]. simpl. unfold bind.
    destruct (body i acc h s) as [[a|e|] s']; try reflexivity.
    now apply IH.
Qed.

(** A step of zero never gets past a non-empty list. *)
Lemma for_loop_zero_step (A : Type) (body : nat -> A -> M A) (len : nat) :
  forall fuel i acc h s, i < len ->
    (forall j a s0, exists a' s1, body j a h s0 = (Return a', s1)) ->
    exists s', for_loop fuel i len 0 body acc h s = (Diverge, s').
Proof.
  induction fuel as [|fuel IH]; intros i acc h s Hi Hbody; simpl.
  - destruct (len <=? i) eqn:E; [apply Nat.leb_le in E; lia|].
    now exists s.
  - destruct (len <=? i) eqn:E; [apply Nat.leb_le in E; lia|].
    unfold bind. destruct (Hbody i acc s) as (a' & s1 & ->).
    apply IH; [lia | exact Hbody].
Qed.



(* ================================================================== *)
(** * Authorisation *)
(* ================================================================== *)

(** [checkAdmin] touches nothing and lets exactly the administrators pass. *)
Lemma checkAdmin_spec (h : Host) (s : State) :
  checkAdmin h s = (if is_admin h then Return tt else Throw Unauthorized, s).
Proof.
  unfold checkAdmin, is_admin, handle, includes, adminUsers, bind, auth,
    process_env_ADMIN_USERS, String_toLowerCase, ret, throw.
  destruct (auth_session h) as [[[[[name|]]|]]|];
    destruct (ADMIN_USERS h) as [v|]; simpl; try reflexivity;
    destruct (truthy name); simpl; try reflexivity;
    match goal with |- context [existsb ?f ?l] => destruct (existsb f l) end;
    reflexivity.
Qed.

Lemma includes_In (l : list jsstring) (x : jsstring) :
  includes l x = true <-> In x l.
Proof.
  unfold includes. rewrite existsb_exists. split.
  - intros [y [Hin Heq]]. apply jsstring_eqb_eq in Heq. now subst.
  - intros Hin. exists x. split; [exact Hin | apply jsstring_eqb_refl].
Qed.

(** A caller without a handle, with an empty handle, or whose handle is not
    on the list, is not an administrator. *)
Lemma not_listed_not_admin (h : Host) :
  (forall name, handle h = Some name -> name <> [] ->
                ~ allow_listed h name) ->
  is_admin h = false.
Proof.
  unfold is_admin, allow_listed. intros H.
  destruct (handle h) as [name|]; [|reflexivity].
  destruct name as [|c name]; [reflexivity|].
  destruct (includes (adminUsers h) (toLowerCase h (c :: name))) eqn:E.
  - apply includes_In in E. exfalso.
    now apply (H (c :: name) eq_refl ltac:(discriminate)).
  - apply andb_false_r.
Qed.

(** Whatever follows [await checkAdmin()] is never reached by a caller who
    is not an administrator. *)
Lemma checkAdmin_blocks (A : Type) (body : M A) (h : Host) (s : State) :
  is_admin h = false ->
  (checkAdmin ;; body) h s = (Throw Unauthorized, s).
Proof. intros H. unfold bind. now rewrite checkAdmin_spec, H. Qed.

Lemma checkAdmin_passes (A : Type) (body : M A) (h : Host) (s : State) :
  is_admin h = true ->
  (checkAdmin ;; body) h s = body h s.
Proof. intros H. unfold bind. now rewrite checkAdmin_spec, H. Qed.

(* ================================================================== *)
(** * Storage: what an insert creates *)
(* ================================================================== *)

Lemma new_rows_app (n : Z) (pid : jsstring) (a b : list jsstring) :
  new_rows n pid (a ++ b)
  = new_rows n pid a ++ new_rows (n + Z.of_nat (length a)) pid b.
Proof.
  revert n. induction a as [|k a IH]; intros n.
  - simpl. now rewrite Z.add_0_r.
  - cbn [app new_rows length]. rewrite IH. f_equal. f_equal. f_equal. lia.
Qed.

Lemma new_rows_length (n : Z) (pid : jsstring) (ks : list jsstring) :
  length (new_rows n pid ks) = length ks.
Proof. revert n. induction ks; intros n; simpl; [|rewrite IHks]; reflexivity. Qed.

Lemma new_rows_keys (n : Z) (pid : jsstring) (ks : list jsstring) :
  map cardKey (new_rows n pid ks) = map toWellFormed ks.
Proof. revert n. induction ks; intros n; simpl; [|rewrite IHks]; reflexivity. Qed.


Lemma nul_free_iff (k : jsstring) : existsb (N.eqb 0) k = false <-> nul_free k.
Proof.
  unfold nul_free. split.
  - intros H Hin. assert (E : existsb (N.eqb 0) k = true); [|congruence].
    apply existsb_exists. exists 0%N. now split.
  - intros H. destruct (existsb (N.eqb 0) k) eqn:E; [|reflexivity].
    apply existsb_exists in E. destruct E as (x & Hx & E).
    apply N.eqb_eq in E. subst. contradiction.
Qed.

(** No backend refuses keys without U+0000, and D1 refuses none. *)
Lemma nul_free_accepted (b : Backend) (ks : list jsstring) :
  Forall nul_free ks -> existsb (refuses_text b) ks = false.
Proof.
  induction 1 as [|k ks Hk _ IH]; [reflexivity|]. simpl. rewrite IH.
  destruct b; simpl; [|reflexivity]. apply nul_free_iff in Hk. now rewrite Hk.
Qed.

Lemma D1_accepts (ks : list jsstring) :
  existsb (refuses_text D1Backend) ks = false.
Proof. induction ks; simpl; auto. Qed.

Lemma Postgres_refuses (ks : list jsstring) :
  ~ Forall nul_free ks -> existsb (refuses_text PostgresBackend) ks = true.
Proof.
  intros Hnot.
  destruct (existsb (refuses_text PostgresBackend) ks) eqn:R; [reflexivity|].
  exfalso. apply Hnot. apply Forall_forall. intros x Hx.
  apply nul_free_iff. destruct (existsb (N.eqb 0) x) eqn:X; [|reflexivity].
  assert (existsb (refuses_text PostgresBackend) ks = true); [|congruence].
  apply existsb_exists. now exists x.
Qed.


(** Both properties of a list of keys can be checked by running. *)
Lemma nul_free_check (ks : list jsstring) :
  forallb (fun k => negb (existsb (N.eqb 0) k)) ks = true ->
  Forall nul_free ks.
Proof.
  rewrite forallb_forall, Forall_forall. intros H k Hk.
  apply nul_free_iff. specialize (H k Hk). now destruct (existsb _ k).
Qed.


Lemma nul_free_dec (ks : list jsstring) :
  {Forall nul_free ks} + {~ Forall nul_free ks}.
Proof.
  apply Forall_dec. intros k. unfold nul_free.
  destruct (in_dec N.eq_dec 0%N k); [right|left]; tauto.
Qed.

Lemma repeat_nul_free (k : jsstring) (n : nat) :
  nul_free k -> Forall nul_free (repeat k n).
Proof.
  intros Hk. apply Forall_forall. intros x Hx.
  apply repeat_spec in Hx. now subst.
Qed.


Lemma new_rows_ids (n : Z) (pid : jsstring) (ks : list jsstring) (c : Card) :
  In c (new_rows n pid ks) -> (n <= id c < n + Z.of_nat (length ks))%Z.
Proof.
  revert n. induction ks as [|k ks IH]; intros n; simpl; [tauto|].
  intros [<-|H]; [simpl; lia|]. apply IH in H. lia.
Qed.

Lemma new_rows_NoDup (n : Z) (pid : jsstring) (ks : list jsstring) :
  NoDup (map id (new_rows n pid ks)).
Proof.
  revert n. induction ks as [|k ks IH]; intros n; simpl; constructor.
  - intros H. apply in_map_iff in H. destruct H as [c [Hid Hin]].
    apply new_rows_ids in Hin. lia.
  - apply IH.
Qed.

Lemma rows_of_new_rows (n : Z) (pid : jsstring) (ks : list jsstring) :
  filter (fun c => jsstring_eqb (productId c) pid) (new_rows n pid ks)
  = new_rows n pid ks.
Proof.
  revert n. induction ks as [|k ks IH]; intros n; simpl; [reflexivity|].
  now rewrite jsstring_eqb_refl, IH.
Qed.

(** The best-effort drop of the legacy index always gets through and leaves
    the rows alone. *)
Lemma drop_legacy_index_spec (h : Host) (s : State) :
  drop_legacy_index_best_effort h s
  = (Return tt,
     {| db := {| cards := cards (db s); next_id := next_id (db s);
                 cards_product_id_card_key_uq := false |};
        stmts := stmts s ++ [DropIndex];
        revalidated := revalidated s; ui := ui s |}).
Proof. reflexivity. Qed.

(** Without the legacy index, an insert the backend accepts stores its
    rows. *)
Lemma db_insert_cards_spec (b : Backend) (pid : jsstring)
    (keys : list jsstring) (h : Host) (s : State) :
  cards_product_id_card_key_uq (db s) = false ->
  existsb (refuses_text b) (pid :: keys) = false ->
  db_insert_cards b pid keys h s
  = (Return tt,
     {| db := {| cards := cards (db s) ++ new_rows (next_id (db s)) pid keys;
                 next_id := next_id (db s) + Z.of_nat (length keys);
                 cards_product_id_card_key_uq := false |};
        stmts := stmts s ++ [InsertCards pid keys];
        revalidated := revalidated s; ui := ui s |}).
Proof.
  intros H Hb. unfold db_insert_cards, violates_uq.
  rewrite Hb. simpl. rewrite H. reflexivity.
Qed.

(** A refused insert stores nothing. *)
Lemma db_insert_cards_refused (b : Backend) (pid : jsstring)
    (keys : list jsstring) (h : Host) (s : State) :
  existsb (refuses_text b) (pid :: keys) = true ->
  db_insert_cards b pid keys h s
  = (Throw InvalidText, log_stmt (InsertCards pid keys) s).
Proof. intros Hb. unfold db_insert_cards. now rewrite Hb. Qed.

(** With the legacy index in place, a batch that repeats a key is refused
    as a whole: this is what the drop is there to prevent. *)
Lemma db_insert_cards_legacy_index (pid k : jsstring) (h : Host) (s : State) :
  cards_product_id_card_key_uq (db s) = true ->
  db_insert_cards D1Backend pid [k; k] h s
  = (Throw UniqueViolation, log_stmt (InsertCards pid [k; k]) s).
Proof.
  intros H. unfold db_insert_cards, violates_uq. rewrite D1_accepts.
  simpl. rewrite H. now rewrite jsstring_eqb_refl.
Qed.

(** The writer's loop: every batch goes out as one statement, and together
    the batches append one row per remaining key. *)
Lemma insert_loop_spec (pid : jsstring) (keys : list jsstring) (h : Host)
    (step : nat) (Hpos : 0 < step) :
  forall fuel i s,
    length keys - i <= fuel ->
    cards_product_id_card_key_uq (db s) = false ->
    exists s' os,
      offsets fuel i (length keys) step = Some os
      /\ for_loop fuel i (length keys) step
           (fun i _ => db_insert_cards D1Backend pid
                         (slice i (i + step) keys)) tt h s
         = (Return tt, s')
      /\ cards (db s')
         = cards (db s) ++ new_rows (next_id (db s)) pid (skipn i keys)
      /\ next_id (db s')
         = (next_id (db s) + Z.of_nat (length (skipn i keys)))%Z
      /\ cards_product_id_card_key_uq (db s') = false
      /\ stmts s'
         = stmts s
           ++ map (fun o => InsertCards pid (slice o (o + step) keys)) os
      /\ revalidated s' = revalidated s
      /\ ui s' = ui s.
Proof.
  induction fuel as [|fuel IH]; intros i s Hfuel Huq; simpl.
  - destruct (length keys <=? i) eqn:E; [|apply Nat.leb_gt in E; lia].
    apply Nat.leb_le in E. exists s, []. rewrite skipn_all2 by exact E.
    simpl. rewrite !app_nil_r, Z.add_0_r. now repeat split.
  - destruct (length keys <=? i) eqn:E.
    + apply Nat.leb_le in E. exists s, []. rewrite skipn_all2 by exact E.
      simpl. rewrite !app_nil_r, Z.add_0_r. now repeat split.
    + unfold bind.
      rewrite db_insert_cards_spec by (exact Huq || apply D1_accepts).
      match goal with
      | |- context [for_loop fuel (i + step) _ _ _ tt h ?s1] =>
          destruct (IH (i + step) s1) as
            (s' & os & Hos & Hrun & Hcards & Hnext & Huq' & Hst & Hrev & Hui);
          [lia | reflexivity |]
      end.
      exists s', (i :: os). rewrite Hos, Hrun. simpl in *.
      assert (Hsplit : skipn i keys
                       = slice i (i + step) keys ++ skipn (i + step) keys).
      { rewrite slice_from.
        replace (skipn (i + step) keys) with (skipn step (skipn i keys));
          [symmetry; apply firstn_skipn|].
        rewrite skipn_skipn. f_equal. lia. }
      repeat split; try assumption.
      * rewrite Hcards, Hsplit, new_rows_app, <- app_assoc. reflexivity.
      * rewrite Hnext, Hsplit, length_app. lia.
      * rewrite Hst, <- app_assoc. reflexivity.
Qed.

(* ================================================================== *)
(** * The batch writer, in both builds *)
(* ================================================================== *)

Lemma length_eqb_0 (A : Type) (l : list A) :
  (length l =? 0) = match l with [] => true | _ :: _ => false end.
Proof. now destruct l. Qed.

(** Nothing survives sanitisation: both builds return before any statement. *)
Lemma addCardsBatch_nothing_to_do (pid : jsstring) (keys : list jsstring)
    (h : Host) (s : State) :
  is_admin h = true -> trim_and_filter keys = [] ->
  Postgres.addCardsBatch pid keys h s = (Return 0, s)
  /\ D1.addCardsBatch pid keys h s = (Return 0, s).
Proof.
  intros Hadm Hnil.
  unfold Postgres.addCardsBatch, D1.addCardsBatch.
  rewrite !checkAdmin_passes by exact Hadm. now rewrite Hnil.
Qed.

(** The Postgres build sends every surviving key in one insert statement. *)
Lemma Postgres_addCardsBatch_spec (pid : jsstring) (keys : list jsstring)
    (h : Host) (s : State) :
  is_admin h = true -> trim_and_filter keys <> [] ->
  Forall nul_free (pid :: trim_and_filter keys) ->
  Postgres.addCardsBatch pid keys h s
  = (Return (length (trim_and_filter keys)),
     {| db := {| cards := cards (db s)
                          ++ new_rows (next_id (db s)) pid
                                      (trim_and_filter keys);
                 next_id := next_id (db s)
                            + Z.of_nat (length (trim_and_filter keys));
                 cards_product_id_card_key_uq := false |};
        stmts := stmts s
                 ++ [DropIndex; InsertCards pid (trim_and_filter keys)];
        revalidated := revalidated s
                       ++ [js "/admin"; js "/admin/cards/" ++ pid; js "/"];
        ui := ui s |}).
Proof.
  intros Hadm Hne Hfree. unfold Postgres.addCardsBatch.
  rewrite checkAdmin_passes by exact Hadm.
  destruct (trim_and_filter keys) as [|k valid] eqn:E; [congruence|].
  cbn [length Nat.eqb]. unfold bind at 1. rewrite drop_legacy_index_spec.
  unfold bind at 1.
  rewrite db_insert_cards_spec
    by (reflexivity || now apply nul_free_accepted).
  unfold revalidate_card_pages, revalidatePath, bind, ret. cbn.
  rewrite <- !app_assoc. reflexivity.
Qed.

(** U+0000 in the product id or in a surviving key: the Postgres build has
    dropped the index and sent its insert when the storage refuses it; no
    row is stored and nothing is invalidated. *)
Lemma Postgres_addCardsBatch_refused (pid : jsstring) (keys : list jsstring)
    (h : Host) (s : State) :
  is_admin h = true -> trim_and_filter keys <> [] ->
  ~ Forall nul_free (pid :: trim_and_filter keys) ->
  Postgres.addCardsBatch pid keys h s
  = (Throw InvalidText,
     {| db := {| cards := cards (db s); next_id := next_id (db s);
                 cards_product_id_card_key_uq := false |};
        stmts := stmts s
                 ++ [DropIndex; InsertCards pid (trim_and_filter keys)];
        revalidated := revalidated s;
        ui := ui s |}).
Proof.
  intros Hadm Hne Hnot. unfold Postgres.addCardsBatch.
  rewrite checkAdmin_passes by exact Hadm.
  destruct (trim_and_filter keys) as [|k valid] eqn:E; [congruence|].
  cbn [length Nat.eqb]. unfold bind at 1. rewrite drop_legacy_index_spec.
  unfold bind at 1.
  rewrite db_insert_cards_refused by (now apply Postgres_refuses).
  unfold log_stmt. cbn. now rewrite <- app_assoc.
Qed.

(** The D1 build sends them in batches of its own chunk size. *)
Lemma D1_addCardsBatch_spec (pid : jsstring) (keys : list jsstring)
    (h : Host) (s : State) :
  is_admin h = true -> trim_and_filter keys <> [] ->
  exists s' bs,
    batches D1.BATCH_SIZE (trim_and_filter keys) = Some bs
    /\ D1.addCardsBatch pid keys h s
       = (Return (length (trim_and_filter keys)), s')
    /\ cards (db s')
       = cards (db s)
         ++ new_rows (next_id (db s)) pid (trim_and_filter keys)
    /\ next_id (db s')
       = (next_id (db s) + Z.of_nat (length (trim_and_filter keys)))%Z
    /\ stmts s' = stmts s ++ DropIndex :: map (InsertCards pid) bs
    /\ revalidated s'
       = revalidated s ++ [js "/admin"; js "/admin/cards/" ++ pid; js "/"]
    /\ ui s' = ui s.
Proof.
  intros Hadm Hne. unfold D1.addCardsBatch.
  rewrite checkAdmin_passes by exact Hadm.
  rewrite length_eqb_0.
  destruct (trim_and_filter keys) as [|k valid] eqn:E; [congruence|].
  set (vs := k :: valid) in *.
  unfold bind at 1. rewrite drop_legacy_index_spec.
  unfold D1.insert_in_chunks.
  match goal with
  | |- context [bind (for_loop _ _ _ _ _ _) _ h ?s1] =>
      destruct (insert_loop_spec pid vs h D1.BATCH_SIZE
                  ltac:(unfold D1.BATCH_SIZE; lia) (length vs) 0 s1)
        as (s' & os & Hos & Hrun & Hcards & Hnext & _ & Hst & Hrev & Hui);
      [lia | reflexivity |]
  end.
  unfold bind at 1. rewrite Hrun.
  unfold revalidate_card_pages, revalidatePath, bind, ret. cbn.
  eexists. exists (map (fun o => slice o (o + D1.BATCH_SIZE) vs) os).
  split; [unfold batches; now rewrite Hos|].
  split; [reflexivity|]. cbn in *.
  rewrite Hcards, Hnext, Hst, Hrev, Hui, map_map, <- !app_assoc.
  now repeat split.
Qed.



(* ================================================================== *)
(** * The claims *)
(* ================================================================== *)

(** The D1 build, whose backend refuses no text, stores every batch. *)
Lemma D1_stores_batch (pid : jsstring) (keys : list jsstring)
    (h : Host) (s : State) :
  is_admin h = true ->
  exists s',
    D1.addCardsBatch pid keys h s
    = (Return (length (trim_and_filter keys)), s')
    /\ cards (db s')
       = cards (db s) ++ new_rows (next_id (db s)) pid (trim_and_filter keys)
    /\ next_id (db s')
       = (next_id (db s) + Z.of_nat (length (trim_and_filter keys)))%Z.
Proof.
  intros Hadm. destruct (trim_and_filter keys) as [|k valid] eqn:E.
  - exists s. destruct (addCardsBatch_nothing_to_do pid keys h s Hadm E)
      as [_ ->].
    simpl. now rewrite app_nil_r, Z.add_0_r.
  - rewrite <- E.
    destruct (D1_addCardsBatch_spec pid keys h s Hadm)
      as (s' & bs & _ & Hrun & Hcards & Hnext & _); [congruence|].
    exists s'. now repeat split.
Qed.

Lemma Postgres_stores_batch (pid : jsstring) (keys : list jsstring)
    (h : Host) (s : State) :
  is_admin h = true -> Forall nul_free (pid :: trim_and_filter keys) ->
  exists s',
    Postgres.addCardsBatch pid keys h s
    = (Return (length (trim_and_filter keys)), s')
    /\ cards (db s')
       = cards (db s) ++ new_rows (next_id (db s)) pid (trim_and_filter keys)
    /\ next_id (db s')
       = (next_id (db s) + Z.of_nat (length (trim_and_filter keys)))%Z.
Proof.
  intros Hadm Hfree. destruct (trim_and_filter keys) as [|k valid] eqn:E.
  - exists s. destruct (addCardsBatch_nothing_to_do pid keys h s Hadm E)
      as [-> _].
    simpl. now rewrite app_nil_r, Z.add_0_r.
  - rewrite <- E in *. eexists.
    rewrite Postgres_addCardsBatch_spec by (congruence || assumption).
    split; [reflexivity|]. split; reflexivity.
Qed.




(** What a caller who is not an administrator gets from every server
    action: [Unauthorized], with the whole state as it was. *)
Lemma unauthorized_everywhere (h : Host) (s : State) :
  is_admin h = false ->
  (forall pid keys,
      Postgres.addCardsBatch pid keys h s = (Throw Unauthorized, s)
      /\ D1.addCardsBatch pid keys h s = (Throw Unauthorized, s))
  /\ (forall pid raw,
         Postgres.addCards pid raw h s = (Throw Unauthorized, s)
         /\ D1.addCards pid raw h s = (Throw Unauthorized, s))
  /\ (forall cardId, deleteCard cardId h s = (Throw Unauthorized, s))
  /\ (forall pid, D1.deleteAllCards pid h s = (Throw Unauthorized, s))
  /\ (forall (A : Type) (body : M A),
         (checkAdmin ;; body) h s = (Throw Unauthorized, s)).
Proof.
  intros H. repeat split; intros; now apply checkAdmin_blocks.
Qed.

(** C2.  A caller whose handle is missing, empty, or not on the configured
    allow-list (both sides compared in lower case) gets [Unauthorized] from
    [addCardsBatch], [addCards], [deleteCard] and [deleteAllCards] in both
    builds, and from any other action, which is [await checkAdmin()]
    followed by some body; the state is exactly what it was, so no statement
    reached storage and no row changed. *)
Theorem C2_unauthorized_before_any_storage_access
    (h : Host) (s : State)
    (Hnot : forall name, handle h = Some name -> name <> [] ->
                         ~ allow_listed h name) :
  (forall pid keys,
      Postgres.addCardsBatch pid keys h s = (Throw Unauthorized, s)
      /\ D1.addCardsBatch pid keys h s = (Throw Unauthorized, s))
  /\ (forall pid raw,
         Postgres.addCards pid raw h s = (Throw Unauthorized, s)
         /\ D1.addCards pid raw h s = (Throw Unauthorized, s))
  /\ (forall cardId, deleteCard cardId h s = (Throw Unauthorized, s))
  /\ (forall pid, D1.deleteAllCards pid h s = (Throw Unauthorized, s))
  /\ (forall (A : Type) (body : M A),
         (checkAdmin ;; body) h s = (Throw Unauthorized, s)).
Proof.
  apply unauthorized_everywhere, not_listed_not_admin, Hnot.
Qed.

Lemma C2_witness :
  (forall name, handle mallory = Some name -> name <> [] ->
                ~ allow_listed mallory name)
  /\ D1.deleteAllCards (js "p1") mallory
       (state_of [row 1 "p1" "k" (Some false) None] 2 false)
     = (Throw Unauthorized,
        state_of [row 1 "p1" "k" (Some false) None] 2 false).
Proof.
  assert (H : forall name, handle mallory = Some name -> name <> [] ->
                           ~ allow_listed mallory name).
  { intros name [= <-] _. unfold allow_listed. vm_compute.
    intros [E|[E|[]]]; discriminate E. }
  split; [exact H|].
  apply (C2_unauthorized_before_any_storage_access mallory _ H).
Defined.

(** C10.  With [ADMIN_USERS] unset the allow-list is empty, [checkAdmin]
    throws [Unauthorized] for every caller, and so does every server action,
    with the state as it was. *)
Theorem C10_unset_allow_list_fails_closed
    (h : Host) (s : State) (Hunset : ADMIN_USERS h = None) :
  adminUsers h = []
  /\ checkAdmin h s = (Throw Unauthorized, s)
  /\ (forall pid keys,
         Postgres.addCardsBatch pid keys h s = (Throw Unauthorized, s)
         /\ D1.addCardsBatch pid keys h s = (Throw Unauthorized, s))
  /\ (forall pid raw,
         Postgres.addCards pid raw h s = (Throw Unauthorized, s)
         /\ D1.addCards pid raw h s = (Throw Unauthorized, s))
  /\ (forall cardId, deleteCard cardId h s = (Throw Unauthorized, s))
  /\ (forall pid, D1.deleteAllCards pid h s = (Throw Unauthorized, s))
  /\ (forall (A : Type) (body : M A),
         (checkAdmin ;; body) h s = (Throw Unauthorized, s)).
Proof.
  assert (Hl : adminUsers h = []) by (unfold adminUsers; now rewrite Hunset).
  assert (Ha : is_admin h = false).
  { unfold is_admin. rewrite Hl. destruct (handle h); [|reflexivity].
    apply andb_false_r. }
  split; [exact Hl|]. split.
  - now rewrite checkAdmin_spec, Ha.
  - now apply unauthorized_everywhere.
Qed.

Lemma C10_witness :
  ADMIN_USERS (host_of (Some (js "alice")) None 0) = None
  /\ checkAdmin (host_of (Some (js "alice")) None 0) empty_state
     = (Throw Unauthorized, empty_state).
Proof.
  split; [reflexivity|].
  apply (C10_unset_allow_list_fails_closed
           (host_of (Some (js "alice")) None 0) empty_state eq_refl).
Defined.

(** [deleteCard] for an administrator, as a decision on the row found. *)
Lemma deleteCard_unfold (h : Host) (s : State) (cardId : Z) :
  is_admin h = true ->
  deleteCard cardId h s
  = let s1 := log_stmt (SelectCard cardId) s in
    match find (fun c => Z.eqb (id c) cardId) (cards (db s)) with
    | None => (Throw CardNotFound, s1)
    | Some c =>
        if used c then (Throw CannotDeleteUsed, s1)
        else if match reservedAt c with
                | Some t => (t >? clock_ms h - 60 * 1000)%Z
                | None => false
                end
        then (Throw CannotDeleteReserved, s1)
        else
          (Return tt,
           {| db := {| cards := filter (fun r => negb (Z.eqb (id r) cardId))
                                       (cards (db s));
                       next_id := next_id (db s);
                       cards_product_id_card_key_uq :=
                         cards_product_id_card_key_uq (db s) |};
              stmts := (stmts s ++ [SelectCard cardId]) ++ [DeleteCard cardId];
              revalidated := ((revalidated s ++ [js "/admin"])
                              ++ [js "/admin/cards"]) ++ [js "/"];
              ui := ui s |})
    end.
Proof.
  intros Hadm. unfold deleteCard. rewrite checkAdmin_passes by exact Hadm.
  unfold bind, db_find_card, Date_now, used, throw. simpl.
  destruct (find (fun c => Z.eqb (id c) cardId) (cards (db s))) as [c|];
    [|reflexivity].
  destruct (match isUsed c with Some b => b | None => false end);
    [reflexivity|].
  destruct (match reservedAt c with
            | Some t => (t >? clock_ms h - 60000)%Z
            | None => false
            end); reflexivity.
Qed.

(** C3.  For an administrator and any card id, [deleteCard] looks the card
    up and
    - throws "Card not found" when there is none;
    - throws a conflict when the card's used flag is true;
    - throws a conflict when the card has [reservedAt > now - 60 s];
    - and otherwise deletes the rows with that id and no other row.
    On each error path storage is exactly what it was. *)
Theorem C3_deleteCard_guard
    (h : Host) (s : State) (cardId : Z) (Hadm : is_admin h = true) :
  let found := find (fun c => Z.eqb (id c) cardId) (cards (db s)) in
  let now := clock_ms h in
  (found = None ->
     exists s', deleteCard cardId h s = (Throw CardNotFound, s')
                /\ db s' = db s)
  /\ (forall c, found = Some c -> isUsed c = Some true ->
        exists s', deleteCard cardId h s = (Throw CannotDeleteUsed, s')
                   /\ db s' = db s)
  /\ (forall c t, found = Some c -> reservedAt c = Some t ->
        (t > now - 60 * 1000)%Z ->
        exists e s', deleteCard cardId h s = (Throw e, s')
                     /\ is_conflict e
                     /\ (isUsed c <> Some true -> e = CannotDeleteReserved)
                     /\ db s' = db s)
  /\ (forall c, found = Some c -> isUsed c <> Some true ->
        (forall t, reservedAt c = Some t -> (t <= now - 60 * 1000)%Z) ->
        exists s', deleteCard cardId h s = (Return tt, s')
                   /\ (forall r, In r (cards (db s')) <->
                                 In r (cards (db s)) /\ id r <> cardId)
                   /\ cards (db s')
                      = filter (fun r => negb (Z.eqb (id r) cardId))
                               (cards (db s))).
Proof.
  intros found now. rewrite deleteCard_unfold by exact Hadm.
  fold found. fold now. cbv zeta. repeat split.
  - intros ->. now eexists.
  - intros c -> Hu. unfold used. rewrite Hu. now eexists.
  - intros c t -> Hr Ht. unfold used. apply Z.gtb_gt in Ht.
    destruct (isUsed c) as [[|]|] eqn:Hu.
    + exists CannotDeleteUsed. eexists. split; [reflexivity|].
      split; [now left|]. split; [congruence | reflexivity].
    + rewrite Hr, Ht.
      exists CannotDeleteReserved. eexists. split; [reflexivity|].
      split; [now right|]. split; reflexivity.
    + rewrite Hr, Ht.
      exists CannotDeleteReserved. eexists. split; [reflexivity|].
      split; [now right|]. split; reflexivity.
  - intros c -> Hu Hr.
    assert (Hu' : used c = false).
    { unfold used. destruct (isUsed c) as [[|]|]; congruence. }
    rewrite Hu'.
    assert (Hr' : match reservedAt c with
                  | Some t => (t >? now - 60 * 1000)%Z
                  | None => false
                  end = false).
    { destruct (reservedAt c) as [t|]; [|reflexivity].
      specialize (Hr t eq_refl). rewrite Z.gtb_ltb. apply Z.ltb_ge. exact Hr. }
    rewrite Hr'. eexists. split; [reflexivity|]. simpl. split; [|reflexivity].
    intros r. rewrite filter_In, negb_true_iff, Z.eqb_neq. tauto.
Qed.

(** The specification's examples at [now = 1000500]: a card reserved 30 s
    ago is refused and stays, a card reserved 90 s ago is deleted, and a
    used card is refused and stays. *)
Lemma C3_witness :
  is_admin alice = true
  /\ (exists s',
         deleteCard 7 alice
           (state_of [row 7 "p1" "k" (Some false) (Some 970500%Z)]
                     8 false)
         = (Throw CannotDeleteReserved, s')
         /\ cards (db s')
            = [row 7 "p1" "k" (Some false) (Some 970500%Z)])
  /\ (exists s',
         deleteCard 7 alice
           (state_of [row 7 "p1" "k" (Some false) (Some 910500%Z)]
                     8 false)
         = (Return tt, s')
         /\ cards (db s') = [])
  /\ (exists s',
         deleteCard 7 alice (state_of [row 7 "p1" "k" (Some true) None] 8 false)
         = (Throw CannotDeleteUsed, s')
         /\ cards (db s') = [row 7 "p1" "k" (Some true) None]).
Proof.
  split; [reflexivity|]. split; [|split].
  - destruct (C3_deleteCard_guard alice
                (state_of [row 7 "p1" "k" (Some false)
                               (Some 970500%Z)] 8 false)
                7 eq_refl) as (_ & _ & H & _).
    destruct (H _ 970500%Z eq_refl eq_refl eq_refl)
      as (e & s' & Hrun & _ & He & Hdb).
    exists s'. rewrite Hrun, Hdb, He; [split; reflexivity | discriminate].
  - destruct (C3_deleteCard_guard alice
                (state_of [row 7 "p1" "k" (Some false)
                               (Some 910500%Z)] 8 false)
                7 eq_refl) as (_ & _ & _ & H).
    destruct (H _ eq_refl) as (s' & Hrun & _ & Hcards).
    + discriminate.
    + intros t [= <-]. vm_compute. discriminate.
    + exists s'. rewrite Hrun, Hcards. split; reflexivity.
  - destruct (C3_deleteCard_guard alice
                (state_of [row 7 "p1" "k" (Some true) None] 8 false)
                7 eq_refl) as (_ & H & _).
    destruct (H _ eq_refl eq_refl) as (s' & Hrun & Hdb).
    exists s'. rewrite Hrun, Hdb. split; reflexivity.
Defined.

(** [deleteAllCards] for an administrator: one conditional delete. *)
Lemma deleteAllCards_unfold (h : Host) (s : State) (pid : jsstring) :
  is_admin h = true ->
  D1.deleteAllCards pid h s
  = (Return (length (filter (delete_all_where h pid) (cards (db s)))),
     {| db := {| cards := filter (fun c => negb (delete_all_where h pid c))
                                 (cards (db s));
                 next_id := next_id (db s);
                 cards_product_id_card_key_uq :=
                   cards_product_id_card_key_uq (db s) |};
        stmts := stmts s ++ [DeleteCardsWhere pid];
        revalidated := revalidated s
                       ++ [js "/admin"; js "/admin/cards/" ++ pid; js "/"];
        ui := ui s |}).
Proof.
  intros Hadm. unfold D1.deleteAllCards.
  rewrite checkAdmin_passes by exact Hadm.
  unfold bind, db_delete_cards_where, revalidate_card_pages, revalidatePath,
    ret. cbn. rewrite length_map, <- !app_assoc. reflexivity.
Qed.

(** The WHERE clause, read as a proposition. *)
Lemma delete_all_where_iff (h : Host) (pid : jsstring) (c : Card) :
  delete_all_where h pid c = true <->
  productId c = pid
  /\ isUsed c <> Some true
  /\ (forall t, reservedAt c = Some t ->
                (t < clock_ms h / 1000 * 1000 - 60000)%Z).
Proof.
  unfold delete_all_where, unixepoch.
  rewrite !andb_true_iff, jsstring_eqb_eq, negb_true_iff.
  split.
  - intros [[Hp Hu] Hr]. split; [exact Hp|]. split.
    + destruct (isUsed c) as [[|]|]; congruence.
    + intros t Ht. rewrite Ht in Hr. now apply Z.ltb_lt.
  - intros (Hp & Hu & Hr). repeat split; [exact Hp | |].
    + destruct (isUsed c) as [[|]|]; congruence.
    + destruct (reservedAt c) as [t|]; [|reflexivity].
      apply Z.ltb_lt. now apply Hr.
Qed.

(** C4, as stated, fails: at clock 1000500 ms a free row of the product
    reserved at 940200 ms has a reservation older than 60 seconds (60.3 s),
    yet [deleteAllCards] reports 0 deleted rows and the row is still there,
    because the statement measures the 60 seconds from the start of the
    clock's current second. *)
Lemma C4_counterexample :
  is_admin alice = true
  /\ spec_deletable (clock_ms alice) (js "p1")
       (row 1 "p1" "k" (Some false) (Some 940200%Z)) = true
  /\ exists s',
       D1.deleteAllCards (js "p1") alice
         (state_of [row 1 "p1" "k" (Some false) (Some 940200%Z)] 2 false)
       = (Return 0, s')
       /\ cards (db s') = [row 1 "p1" "k" (Some false) (Some 940200%Z)].
Proof.
  split; [reflexivity|]. split; [reflexivity|].
  eexists. split; [vm_compute; reflexivity | reflexivity].
Qed.

(** C4, amended.  For an administrator, [deleteAllCards] sends one
    conditional delete statement.  It removes exactly the rows of the product
    whose used flag is false or absent and whose reservation is absent or
    earlier than 60 seconds before the start of the clock's current second,
    keeps every other row, and returns the number of rows removed.  Every
    removed row has a reservation that is absent or older than 60 seconds,
    and every free row of the product whose reservation is absent or older
    than 61 seconds is removed. *)
Theorem C4_deleteAllCards_conditional_delete
    (h : Host) (s : State) (pid : jsstring) (Hadm : is_admin h = true) :
  let removable c :=
    productId c = pid
    /\ isUsed c <> Some true
    /\ (forall t, reservedAt c = Some t ->
                  (t < clock_ms h / 1000 * 1000 - 60 * 1000)%Z) in
  exists n s',
    D1.deleteAllCards pid h s = (Return n, s')
    /\ stmts s' = stmts s ++ [DeleteCardsWhere pid]
    /\ (forall c, In c (cards (db s')) <->
                  In c (cards (db s)) /\ ~ removable c)
    /\ cards (db s')
       = filter (fun c => negb (delete_all_where h pid c)) (cards (db s))
    /\ n = length (filter (delete_all_where h pid) (cards (db s)))
    /\ length (cards (db s)) = n + length (cards (db s'))
    /\ (forall c, removable c -> spec_deletable (clock_ms h) pid c = true)
    /\ (forall c, spec_deletable (clock_ms h - 1000) pid c = true ->
                  removable c).
Proof.
  intros removable. rewrite deleteAllCards_unfold by exact Hadm.
  assert (Hrem : forall c, delete_all_where h pid c = true <-> removable c)
    by (intros c; apply delete_all_where_iff).
  do 2 eexists. split; [reflexivity|]. cbn [db stmts cards].
  assert (Hdiv : (clock_ms h - 1000 < clock_ms h / 1000 * 1000
                  <= clock_ms h)%Z).
  { pose proof (Z.mod_pos_bound (clock_ms h) 1000 ltac:(lia)) as Hm.
    rewrite Zmod_eq in Hm by lia. lia. }
  split; [reflexivity|]. split; [|split; [reflexivity|split; [reflexivity|]]].
  - intros c. rewrite filter_In, negb_true_iff, <- (Hrem c).
    destruct (delete_all_where h pid c); intuition congruence.
  - split; [symmetry; apply filter_length|]. split.
    + intros c (Hp & Hu & Hr). unfold spec_deletable, used.
      rewrite !andb_true_iff, jsstring_eqb_eq, negb_true_iff.
      repeat split; [exact Hp | |].
      * destruct (isUsed c) as [[|]|]; congruence.
      * destruct (reservedAt c) as [t|]; [|reflexivity].
        specialize (Hr t eq_refl). apply Z.ltb_lt. lia.
    + intros c. unfold spec_deletable, used.
      rewrite !andb_true_iff, jsstring_eqb_eq, negb_true_iff.
      intros [[Hp Hu] Hr]. repeat split; [exact Hp | |].
      * destruct (isUsed c) as [[|]|]; congruence.
      * intros t Ht. rewrite Ht in Hr. apply Z.ltb_lt in Hr. lia.
Qed.

(** The specification's example: three free keys and two used keys of the
    product; 3 rows are deleted and the two used keys stay. *)
Lemma C4_witness :
  is_admin alice = true
  /\ exists s',
       D1.deleteAllCards (js "p1") alice
         (state_of [row 1 "p1" "a" (Some false) None;
                    row 2 "p1" "b" (Some true) None;
                    row 3 "p1" "c" None None;
                    row 4 "p1" "d" (Some true) None;
                    row 5 "p1" "e" (Some false) None] 6 false)
       = (Return 3, s')
       /\ cards (db s') = [row 2 "p1" "b" (Some true) None;
                           row 4 "p1" "d" (Some true) None].
Proof.
  split; [reflexivity|].
  destruct (C4_deleteAllCards_conditional_delete alice
              (state_of [row 1 "p1" "a" (Some false) None;
                         row 2 "p1" "b" (Some true) None;
                         row 3 "p1" "c" None None;
                         row 4 "p1" "d" (Some true) None;
                         row 5 "p1" "e" (Some false) None] 6 false)
              (js "p1") eq_refl)
    as (n & s' & Hrun & _ & _ & Hcards & Hn & _).
  exists s'. rewrite Hrun, Hcards, Hn. split; reflexivity.
Defined.



(** On a full batch the component's percentage is the specification's. *)
Lemma progress_percent_full_batch (i total : nat) :
  i + Client.BATCH_SIZE <= total ->
  Client.progress_percent i total = spec_percent i total.
Proof.
  intros H. unfold Client.progress_percent, spec_percent, spec_processed.
  now rewrite Nat.min_l by exact H.
Qed.

(** C6.  The component sets [processed] to [min(i + 50, total)], but it
    computes the percentage from [i + 50], not from [processed].  Uploading a
    file with the single key "a" sets [processed] to 1 and the percentage to
    5000, where [round(processed / total * 100)] is 100; with 51 keys the
    second batch sets [processed] to 51 and the percentage to 196. *)
Theorem C6_progress_percent_exceeds_100
    : spec_processed 0 1 = 1
      /\ spec_percent 0 1 = 100%Z
      /\ ui (snd (Client.handleFileUpload D1.addCardsBatch (js "p1")
                    (Some (js "a")) alice empty_state))
         = [SetUploading true; SetProgress 0; SetProcessedCount 0;
            SetTotalCount 0; SetTotalCount 1;
            SetProcessedCount 1; SetProgress 5000;
            ToastSuccess (UploadSuccess 1); RouterRefresh;
            SetUploading false; SetProgress 0; SetProcessedCount 0;
            SetTotalCount 0; ClearFileInput]
      /\ spec_percent 50 51 = 100%Z
      /\ ui (snd (Client.handleFileUpload D1.addCardsBatch (js "p1")
                    (Some (join LF (repeat (js "k") 51))) alice empty_state))
         = [SetUploading true; SetProgress 0; SetProcessedCount 0;
            SetTotalCount 0; SetTotalCount 51;
            SetProcessedCount 50; SetProgress 98;
            SetProcessedCount 51; SetProgress 196;
            ToastSuccess (UploadSuccess 51); RouterRefresh;
            SetUploading false; SetProgress 0; SetProcessedCount 0;
            SetTotalCount 0; ClearFileInput].
Proof. repeat split; vm_compute; reflexivity. Qed.

Lemma insert_sizes_inserts (pid : jsstring) (bs : list (list jsstring)) :
  insert_sizes (map (InsertCards pid) bs) = map (@length jsstring) bs.
Proof. induction bs; simpl; [|rewrite IHbs]; reflexivity. Qed.

Lemma inserted_keys_inserts (pid : jsstring) (bs : list (list jsstring)) :
  inserted_keys (map (InsertCards pid) bs) = concat bs.
Proof. induction bs; simpl; [|rewrite IHbs]; reflexivity. Qed.

(** No batch is longer than the batch size. *)
Lemma batches_bounded (A : Type) (size : nat) (l : list A) (bs : list (list A)) :
  batches size l = Some bs ->
  Forall (fun b => length b <= size) bs /\ concat bs = l.
Proof.
  unfold batches.
  destruct (offsets (length l) 0 (length l) size) as [os|] eqn:Hos;
    [|discriminate].
  intros [= <-]. split.
  - apply Forall_forall. intros b Hb. apply in_map_iff in Hb.
    destruct Hb as [o [<- _]]. rewrite slice_from, length_firstn. lia.
  - now rewrite (concat_slices _ l size _ 0 os Hos).
Qed.

Lemma repeat_clean (k : jsstring) (n : nat) :
  clean_key k -> trim_and_filter (repeat k n) = repeat k n.
Proof.
  intros Hk. apply trim_and_filter_fixed, Forall_forall.
  intros x Hx. apply repeat_spec in Hx. now subst.
Qed.

(** C7, as stated, fails for the Postgres build: no constant bounds the
    number of keys in one of its insert statements.  For any proposed bound,
    a call with one more key than the bound sends them all in one insert. *)
Lemma C7_counterexample :
  ~ exists bound : nat,
      forall keys : list jsstring,
        Forall (fun n => n <= bound)
               (insert_sizes
                  (stmts (snd (Postgres.addCardsBatch (js "p1") keys
                                 alice empty_state)))).
Proof.
  intros [bound H]. specialize (H (repeat (js "k") (S bound))).
  assert (Hk : clean_key (js "k")) by (split; [reflexivity | discriminate]).
  assert (Hn : nul_free (js "k"))
    by (intros Hin; vm_compute in Hin; intuition discriminate).
  rewrite Postgres_addCardsBatch_spec in H;
    [| reflexivity | rewrite repeat_clean by exact Hk; discriminate
     | rewrite repeat_clean by exact Hk; constructor;
       [intros Hin; vm_compute in Hin; intuition discriminate
       | now apply repeat_nul_free]].
  rewrite repeat_clean in H by exact Hk.
  cbn [snd stmts empty_state state_of app insert_sizes] in H.
  inversion H as [|? ? Hle _]; subst. rewrite repeat_length in Hle. lia.
Qed.

(** C7, amended.  For an administrator and any input, the D1 build of
    [addCardsBatch] sends its inserts in batches of at most its own
    [BATCH_SIZE] of 10 keys (the coordinator's is 50), and the batches
    together carry exactly the surviving keys in order.  The Postgres build
    sends all surviving keys in a single insert statement, whatever their
    number; its call returns the count, unless the product id or a surviving
    key holds U+0000: then the storage refuses the statement and the call
    throws. *)
Theorem C7_writer_insert_statement_sizes
    (h : Host) (s : State) (pid : jsstring) (keys : list jsstring)
    (Hadm : is_admin h = true) :
  let valid := trim_and_filter keys in
  D1.BATCH_SIZE = 10 /\ Client.BATCH_SIZE = 50
  /\ (exists s' sent,
         D1.addCardsBatch pid keys h s = (Return (length valid), s')
         /\ stmts s' = stmts s ++ sent
         /\ Forall (fun n => n <= D1.BATCH_SIZE) (insert_sizes sent)
         /\ inserted_keys sent = valid)
  /\ (exists outcome s' sent,
         Postgres.addCardsBatch pid keys h s = (outcome, s')
         /\ (valid = [] \/ Forall nul_free (pid :: valid) ->
             outcome = Return (length valid))
         /\ (valid <> [] -> ~ Forall nul_free (pid :: valid) ->
             outcome = Throw InvalidText)
         /\ stmts s' = stmts s ++ sent
         /\ insert_sizes sent
            = match valid with [] => [] | _ :: _ => [length valid] end
         /\ inserted_keys sent = valid).
Proof.
  intros valid. split; [reflexivity|]. split; [reflexivity|].
  destruct valid as [|k valid'] eqn:E; subst valid.
  - destruct (addCardsBatch_nothing_to_do pid keys h s Hadm E) as [Hp Hd].
    split.
    + exists s, []. rewrite app_nil_r.
      split; [assumption|]. repeat split; constructor.
    + exists (Return 0), s, []. rewrite app_nil_r.
      split; [assumption|]. repeat split. congruence.
  - rewrite <- E. split.
    + destruct (D1_addCardsBatch_spec pid keys h s Hadm)
        as (s' & bs & Hbs & Hrun & _ & _ & Hst & _); [congruence|].
      destruct (batches_bounded _ _ _ _ Hbs) as [Hle Hcat].
      exists s', (DropIndex :: map (InsertCards pid) bs).
      repeat split; try assumption.
      * cbn [insert_sizes]. rewrite insert_sizes_inserts.
        now apply Forall_map.
      * cbn [inserted_keys]. now rewrite inserted_keys_inserts.
    + assert (Hne : trim_and_filter keys <> []) by congruence.
      destruct (nul_free_dec (pid :: trim_and_filter keys)) as [Hfree|Hnot].
      * exists (Return (length (trim_and_filter keys))). eexists.
        exists [DropIndex; InsertCards pid (trim_and_filter keys)].
        rewrite Postgres_addCardsBatch_spec by assumption.
        split; [reflexivity|]. split; [reflexivity|].
        split; [intros _ Hnot; contradiction|]. split; [reflexivity|]. split.
        -- cbn [insert_sizes]. now rewrite E.
        -- cbn [inserted_keys]. now rewrite app_nil_r.
      * exists (Throw InvalidText). eexists.
        exists [DropIndex; InsertCards pid (trim_and_filter keys)].
        rewrite Postgres_addCardsBatch_refused by assumption.
        split; [reflexivity|].
        split; [intros [Hnil|Hfree]; [congruence|contradiction]|].
        split; [reflexivity|]. split; [reflexivity|]. split.
        -- cbn [insert_sizes]. now rewrite E.
        -- cbn [inserted_keys]. now rewrite app_nil_r.
Qed.

(** Twenty-three keys in one call: the D1 build's inserts carry 10, 10 and
    3 keys. *)
Lemma C7_witness :
  is_admin alice = true
  /\ insert_sizes
       (stmts (snd (D1.addCardsBatch (js "p1") (repeat (js "k") 23)
                      alice empty_state)))
     = [10; 10; 3]
  /\ exists s' sent,
       D1.addCardsBatch (js "p1") (repeat (js "k") 23) alice empty_state
       = (Return 23, s')
       /\ stmts s' = stmts empty_state ++ sent
       /\ Forall (fun n => n <= D1.BATCH_SIZE) (insert_sizes sent)
       /\ inserted_keys sent = repeat (js "k") 23.
Proof.
  split; [reflexivity|]. split; [vm_compute; reflexivity|].
  exact (proj1 (proj2 (proj2
           (C7_writer_insert_statement_sizes alice empty_state (js "p1")
              (repeat (js "k") 23) eq_refl)))).
Defined.

(** C8.  Normalisation cuts the text at its newline characters and nowhere
    else: the pieces contain no newline, joined by newlines they give the
    text back, and they are the only such decomposition.  It then trims each
    piece and drops the pieces that are empty after trimming.  So a text made
    of newline-free, already trimmed, non-empty keys joined by newlines
    normalises to exactly those keys, whatever other characters they contain;
    in particular a single such key with a comma in it stays one key. *)
Theorem C8_normalize_splits_on_newlines_only (text : jsstring) :
  let lines := split LF text in
  join LF lines = text
  /\ Forall (fun l => ~ In LF l) lines
  /\ (forall pieces, pieces <> [] -> Forall (fun l => ~ In LF l) pieces ->
        join LF pieces = text -> pieces = lines)
  /\ normalize text = filter truthy (map trim lines)
  /\ (forall keys,
        Forall (fun k => ~ In LF k /\ trim k = k /\ k <> []) keys ->
        text = join LF keys -> normalize text = keys)
  /\ (forall a b,
        text = a ++ COMMA :: b -> ~ In LF text -> trim text = text ->
        normalize text = [text]).
Proof.
  intros lines.
  assert (Hkeys : forall keys,
            Forall (fun k => ~ In LF k /\ trim k = k /\ k <> []) keys ->
            text = join LF keys -> normalize text = keys).
  { intros keys Hk ->. unfold normalize.
    destruct keys as [|k keys']; [reflexivity|].
    rewrite split_join; [| discriminate |].
    - apply trim_and_filter_fixed. revert Hk. apply Forall_impl.
      intros x (_ & Ht & Hx). now split.
    - revert Hk. apply Forall_impl. now intros x (Hx & _). }
  split; [apply join_split|]. split; [apply split_pieces_free|].
  split; [|split; [reflexivity|split; [exact Hkeys|]]].
  - intros pieces Hne Hfree <-. symmetry. now apply split_join.
  - intros a b Hab Hfree Htrim. apply (Hkeys [text]); [|reflexivity].
    constructor; [|constructor]. repeat split; try assumption.
    rewrite Hab. now destruct a.
Qed.

(** Two keys with commas, padded and separated by an empty line. *)
Lemma C8_witness :
  normalize (join LF [js "a,b"; js "c,,d"]) = [js "a,b"; js "c,,d"]
  /\ normalize (join LF [js " a,b "; js ""; js "c,,d"; js "  "])
     = [js "a,b"; js "c,,d"].
Proof.
  split.
  - apply (proj1 (proj2 (proj2 (proj2 (proj2
             (C8_normalize_splits_on_newlines_only
                (join LF [js "a,b"; js "c,,d"]))))))).
    + repeat constructor; try discriminate;
        vm_compute; intuition discriminate.
    + reflexivity.
  - rewrite (proj1 (proj2 (proj2 (proj2
               (C8_normalize_splits_on_newlines_only
                  (join LF [js " a,b "; js ""; js "c,,d"; js "  "])))))).
    reflexivity.
Defined.

(* ================================================================== *)
(** * Further properties: trimming and normalisation *)
(* ================================================================== *)

Lemma trimStart_nil_iff (s : jsstring) :
  trimStart s = [] <-> all_white s = true.
Proof.
  unfold all_white. induction s as [|c s IH]; simpl; [tauto|].
  destruct (isStrWhiteSpaceChar c); simpl; [exact IH|].
  split; discriminate.
Qed.

Lemma all_white_rev (s : jsstring) : all_white (rev s) = all_white s.
Proof.
  unfold all_white. apply eq_true_iff_eq. rewrite !forallb_forall.
  split; intros H x Hx; apply H; [now apply in_rev in Hx | now apply in_rev].
Qed.

Lemma all_white_app (a b : jsstring) :
  all_white (a ++ b) = all_white a && all_white b.
Proof. apply forallb_app. Qed.

(** What [trimStart] removes is white space. *)
Lemma trimStart_split (s : jsstring) :
  exists p, s = p ++ trimStart s /\ all_white p = true.
Proof.
  induction s as [|c s (p & Hp & Hw)]; simpl.
  - now exists [].
  - destruct (isStrWhiteSpaceChar c) eqn:E.
    + exists (c :: p). simpl. rewrite E. split; [now f_equal | exact Hw].
    + now exists [].
Qed.

Lemma trimEnd_split (s : jsstring) :
  exists q, s = trimEnd s ++ q /\ all_white q = true.
Proof.
  unfold trimEnd. destruct (trimStart_split (rev s)) as (p & Hp & Hw).
  exists (rev p). split.
  - rewrite <- rev_app_distr, <- Hp. now rewrite rev_involutive.
  - now rewrite all_white_rev.
Qed.

Lemma trim_nil_iff (s : jsstring) : trim s = [] <-> all_white s = true.
Proof.
  destruct (trimStart_split s) as (p & Hp & Hwp).
  destruct (trimEnd_split (trimStart s)) as (q & Hq & Hwq).
  fold (trim s) in Hq. split.
  - intros H. rewrite H in Hq. simpl in Hq.
    rewrite Hp, Hq, all_white_app, Hwp, Hwq. reflexivity.
  - intros H. apply trimStart_nil_iff in H. unfold trim. now rewrite H.
Qed.

Lemma truthy_trim (s : jsstring) : truthy (trim s) = negb (all_white s).
Proof.
  destruct (all_white s) eqn:E.
  - apply trim_nil_iff in E. now rewrite E.
  - destruct (trim s) eqn:T; [|reflexivity].
    apply trim_nil_iff in T. congruence.
Qed.

Lemma trim_and_filter_nonblank (xs : list jsstring) :
  trim_and_filter xs = map trim (filter (fun x => negb (all_white x)) xs).
Proof.
  unfold trim_and_filter. induction xs as [|x xs IH]; [reflexivity|].
  simpl. rewrite truthy_trim, IH. now destruct (all_white x).
Qed.



(** X2.  [trim] removes a run of white space at the front and one at the
    back and nothing else: the string is white space, then the trimmed
    string, then white space, and the trimmed string neither starts nor ends
    with a character that [trim] strips. *)
Theorem X2_trim_strips_both_ends_only (s : jsstring) :
  exists p q,
    s = p ++ trim s ++ q
    /\ all_white p = true /\ all_white q = true
    /\ starts_clean (trim s) /\ starts_clean (rev (trim s)).
Proof.
  destruct (trimStart_split s) as (p & Hp & Hwp).
  destruct (trimEnd_split (trimStart s)) as (q & Hq & Hwq).
  fold (trim s) in Hq. exists p, q. repeat split; try assumption.
  - now rewrite <- Hq.
  - apply trimEnd_starts_clean, trimStart_clean.
  - unfold trim, trimEnd. rewrite rev_involutive. apply trimStart_clean.
Qed.

Lemma In_trim (s : jsstring) (c : N) : In c (trim s) -> In c s.
Proof.
  intros H. destruct (trimStart_split s) as (p & Hp & _).
  destruct (trimEnd_split (trimStart s)) as (q & Hq & _).
  fold (trim s) in Hq. rewrite Hp, Hq.
  apply in_or_app. right. apply in_or_app. now left.
Qed.

Lemma In_split (sep : N) (s l : jsstring) (c : N) :
  In l (split sep s) -> In c l -> In c s.
Proof.
  revert l. induction s as [|x s IH]; intros l; cbn [split].
  - intros [<-|[]] [].
  - destruct (N.eqb x sep) eqn:E.
    + intros [<-|H] Hc; [destruct Hc | right; now apply (IH l)].
    + destruct (split sep s) as [|cur rest] eqn:S.
      * intros [<-|[]] [<-|[]]. now left.
      * intros [<-|H] Hc.
        -- destruct Hc as [<-|Hc]; [now left|].
           right. apply (IH cur); [now left | exact Hc].
        -- right. apply (IH l); [now right | exact Hc].
Qed.

(** No normalised key contains a newline. *)
Lemma normalize_free (text : jsstring) :
  Forall (fun k => ~ In LF k) (normalize text).
Proof.
  apply Forall_forall. intros k Hk Hin. unfold normalize, trim_and_filter in Hk.
  apply filter_In in Hk. destruct Hk as [Hk _].
  apply in_map_iff in Hk. destruct Hk as (l & <- & Hl).
  apply In_trim in Hin.
  pose proof (split_pieces_free LF text) as Hfree.
  rewrite Forall_forall in Hfree. exact (Hfree l Hl Hin).
Qed.

(** X3.  Normalisation is stable: writing the normalised keys out one per
    line and normalising that text gives the same keys. *)
Theorem X3_normalize_round_trip (text : jsstring) :
  normalize (join LF (normalize text)) = normalize text.
Proof.
  destruct (normalize text) as [|k ks] eqn:E; [reflexivity|].
  rewrite <- E. unfold normalize at 1.
  rewrite split_join.
  - unfold normalize. apply trim_and_filter_idempotent.
  - rewrite E. discriminate.
  - apply normalize_free.
Qed.

Lemma split_length (sep : N) (s : jsstring) :
  length (split sep s) = S (count_occ N.eq_dec s sep).
Proof.
  induction s as [|c s IH]; [reflexivity|]. cbn [split count_occ].
  destruct (N.eqb_spec c sep) as [->|Hne].
  - destruct (N.eq_dec sep sep); [|congruence]. simpl. now rewrite IH.
  - destruct (N.eq_dec c sep); [congruence|].
    destruct (split sep s); simpl in *; lia.
Qed.

(** X4.  Splitting gives one piece more than there are separators, so an
    allow-list has one entry more than it has commas, and a text never
    normalises to more keys than it has lines. *)
Theorem X4_split_counts_separators (sep : N) (text : jsstring) :
  length (split sep text) = S (count_occ N.eq_dec text sep)
  /\ length (normalize text) <= S (count_occ N.eq_dec text LF)
  /\ forall h v, ADMIN_USERS h = Some v ->
       length (adminUsers h)
       = S (count_occ N.eq_dec (toLowerCase h v) COMMA).
Proof.
  split; [apply split_length|]. split.
  - unfold normalize, trim_and_filter.
    rewrite <- split_length, <- (length_map trim (split LF text)).
    apply filter_length_le.
  - intros h v Hv. unfold adminUsers. rewrite Hv. apply split_length.
Qed.

Lemma X4_witness :
  length (adminUsers alice) = 2.
Proof.
  exact (proj2 (proj2 (X4_split_counts_separators COMMA []))
           alice (js "bob,ALICE") eq_refl).
Defined.

(* ================================================================== *)
(** * Further properties: the number of batches *)
(* ================================================================== *)

(** The loop visits exactly the offsets [batch_offsets] lists. *)
Lemma offsets_explicit (size len : nat) :
  0 < size -> offsets len 0 len size = Some (batch_offsets size len).
Proof.
  intros Hpos.
  destruct (offsets_total size Hpos len len 0) as [os Hos]; [lia|].
  rewrite Hos. f_equal.
  destruct (offsets_spec _ _ _ _ _ Hos) as (Hnth & Hlt & Hend).
  simpl in Hnth, Hlt, Hend.
  assert (Hn : (len + size - 1) / size = length os).
  { symmetry. destruct (length os) as [|n] eqn:En.
    - assert (len = 0) by lia. subst len. symmetry.
      apply Nat.div_small. lia.
    - specialize (Hlt n (Nat.lt_succ_diag_r n)).
      apply (Nat.div_unique _ _ _ (len + size - 1 - size * S n)); nia. }
  unfold batch_offsets. rewrite Hn.
  apply (nth_ext _ _ 0 0); [now rewrite length_map, length_seq|].
  intros k Hk. rewrite Hnth by exact Hk.
  pose proof (map_nth (fun j => j * size) (seq 0 (length os)) 0 k) as E.
  change ((fun j => j * size) 0) with 0 in E.
  now rewrite E, seq_nth.
Qed.

Lemma batch_offsets_length (size total : nat) :
  length (batch_offsets size total) = (total + size - 1) / size.
Proof. unfold batch_offsets. now rewrite length_map, length_seq. Qed.

(** Every offset starts a non-empty batch. *)
Lemma batch_offsets_below (size total i : nat) :
  0 < size -> In i (batch_offsets size total) -> i < total.
Proof.
  intros Hpos Hin.
  pose proof (offsets_explicit size total Hpos) as Hos.
  destruct (offsets_spec _ _ _ _ _ Hos) as (Hnth & Hlt & _).
  simpl in Hnth, Hlt.
  apply (In_nth _ _ 0) in Hin. destruct Hin as (k & Hk & <-).
  rewrite Hnth by exact Hk. now apply Hlt.
Qed.

(** X5.  For a positive batch size the loop cuts a list of [N] elements
    into exactly [ceil(N / size)] batches, the slices at the offsets
    [0, size, 2 size, ...]; an empty list gives no batch at all. *)
Theorem X5_number_of_batches
    (A : Type) (l : list A) (size : nat) (Hpos : 0 < size) :
  batches size l
  = Some (map (fun i => slice i (i + size) l)
              (batch_offsets size (length l)))
  /\ length (batch_offsets size (length l)) = (length l + size - 1) / size
  /\ (l = [] -> batches size l = Some [])
  /\ forall (B : Type) (body : nat -> B -> M B) (acc : B) h s,
       for_loop (length l) 0 (length l) size body acc h s
       = foldM body (batch_offsets size (length l)) acc h s.
Proof.
  pose proof (offsets_explicit size (length l) Hpos) as Hos.
  split; [unfold batches; now rewrite Hos|].
  split; [apply batch_offsets_length|]. split.
  - now intros ->.
  - intros B body acc h s. now apply for_loop_foldM.
Qed.

(** 101 keys in batches of 50: three batches, of 50, 50 and 1. *)
Lemma X5_witness :
  option_map (map (@length nat)) (batches 50 (seq 0 101)) = Some [50; 50; 1]
  /\ length (batch_offsets 50 (length (seq 0 101))) = 3.
Proof.
  destruct (X5_number_of_batches nat (seq 0 101) 50 ltac:(lia))
    as (Hb & Hn & _).
  split; [rewrite Hb; vm_compute; reflexivity | rewrite Hn; reflexivity].
Defined.

(* ================================================================== *)
(** * Further properties: one call of the batch writer, in full *)
(* ================================================================== *)

Lemma State_eta (s : State) :
  s = {| db := {| cards := cards (db s); next_id := next_id (db s);
                  cards_product_id_card_key_uq :=
                    cards_product_id_card_key_uq (db s) |};
         stmts := stmts s; revalidated := revalidated s; ui := ui s |}.
Proof. now destruct s as [[c n u] q r e]. Qed.

Lemma Postgres_sends (h : Host) :
  is_admin h = true ->
  sends_batch nul_free h Postgres.addCardsBatch Postgres_sent.
Proof.
  intros Hadm pid keys s Hclean Hfree Hne.
  pose proof (trim_and_filter_fixed keys Hclean) as E.
  rewrite Postgres_addCardsBatch_spec by (exact Hadm || congruence).
  now rewrite E.
Qed.

Lemma Forall_slice (A : Type) (P : A -> Prop) (l : list A) (i j : nat) :
  Forall P l -> Forall P (slice i j l).
Proof.
  rewrite !Forall_forall. intros H x Hx. apply H.
  exact (In_slice i j l x Hx).
Qed.

Lemma Forall_True (A : Type) (l : list A) : Forall (fun _ => True) l.
Proof. now apply Forall_forall. Qed.

(** One call of the D1 build with surviving keys, in full. *)
Lemma D1_addCardsBatch_full (pid : jsstring) (keys : list jsstring)
    (h : Host) (s : State) :
  is_admin h = true -> trim_and_filter keys <> [] ->
  D1.addCardsBatch pid keys h s
  = (Return (length (trim_and_filter keys)),
     {| db := {| cards := cards (db s)
                          ++ new_rows (next_id (db s)) pid
                                      (trim_and_filter keys);
                 next_id := next_id (db s)
                            + Z.of_nat (length (trim_and_filter keys));
                 cards_product_id_card_key_uq := false |};
        stmts := stmts s ++ D1_sent pid (trim_and_filter keys);
        revalidated := revalidated s ++ card_pages pid;
        ui := ui s |}).
Proof.
  intros Hadm Hne.
  unfold D1.addCardsBatch. rewrite checkAdmin_passes by exact Hadm.
  rewrite length_eqb_0.
  remember (trim_and_filter keys) as valid eqn:Ev. clear Ev keys.
  destruct valid as [|k ks] eqn:Ek; [congruence|].
  rewrite <- Ek in *. clear Ek.
  unfold bind at 1. rewrite drop_legacy_index_spec.
  unfold D1.insert_in_chunks.
  assert (Hpos : 0 < D1.BATCH_SIZE) by (unfold D1.BATCH_SIZE; lia).
  match goal with
  | |- context [bind (for_loop _ _ _ _ _ _) _ h ?s1] =>
      destruct (insert_loop_spec pid valid h D1.BATCH_SIZE Hpos
                  (length valid) 0 s1)
        as (s' & os & Hos & Hrun & Hcards & Hnext & Huq & Hst & Hrev & Hui);
      [lia | reflexivity |]
  end.
  rewrite offsets_explicit in Hos by exact Hpos. injection Hos as <-.
  unfold bind at 1. rewrite Hrun.
  unfold revalidate_card_pages, revalidatePath, bind, ret.
  destruct s' as [[c n u] q r e].
  cbn [db cards next_id cards_product_id_card_key_uq stmts revalidated ui]
    in *.
  subst c n u q r e. unfold D1_sent, card_pages.
  now rewrite <- !app_assoc.
Qed.

Lemma D1_sends (h : Host) :
  is_admin h = true -> sends_batch (fun _ => True) h D1.addCardsBatch D1_sent.
Proof.
  intros Hadm pid keys s Hclean _ Hne.
  pose proof (trim_and_filter_fixed keys Hclean) as E.
  rewrite D1_addCardsBatch_full by (exact Hadm || congruence).
  now rewrite E.
Qed.

Lemma slice_nonempty (A : Type) (l : list A) (i size : nat) :
  0 < size -> i < length l -> slice i (i + size) l <> [].
Proof.
  intros Hpos Hi H. apply (f_equal (@length A)) in H.
  rewrite slice_from, length_firstn, length_skipn in H. simpl in H. lia.
Qed.

Lemma insert_sizes_app (a b : list Stmt) :
  insert_sizes (a ++ b) = insert_sizes a ++ insert_sizes b.
Proof.
  induction a as [|q a IH]; [reflexivity|].
  destruct q; simpl; now rewrite IH.
Qed.

Lemma inserted_keys_app (a b : list Stmt) :
  inserted_keys (a ++ b) = inserted_keys a ++ inserted_keys b.
Proof.
  induction a as [|q a IH]; [reflexivity|].
  destruct q; simpl; rewrite IH; [|now rewrite app_assoc| | |]; reflexivity.
Qed.

(** What one call sends, in each build: the Postgres build one insert with
    all the keys, the D1 build inserts of at most 10 keys; either way the
    inserts carry the keys of the call in order. *)
Lemma Postgres_sent_inserts (pid : jsstring) (keys : list jsstring) :
  insert_sizes (Postgres_sent pid keys) = [length keys]
  /\ inserted_keys (Postgres_sent pid keys) = keys.
Proof. split; [reflexivity | apply app_nil_r]. Qed.

Lemma D1_sent_inserts (pid : jsstring) (keys : list jsstring) :
  Forall (fun n => n <= D1.BATCH_SIZE) (insert_sizes (D1_sent pid keys))
  /\ inserted_keys (D1_sent pid keys) = keys.
Proof.
  assert (Hpos : 0 < D1.BATCH_SIZE) by (unfold D1.BATCH_SIZE; lia).
  unfold D1_sent. cbn [insert_sizes inserted_keys].
  rewrite <- (map_map (fun i => slice i (i + D1.BATCH_SIZE) keys)
                      (InsertCards pid)).
  rewrite insert_sizes_inserts, inserted_keys_inserts.
  destruct (batches_bounded _ D1.BATCH_SIZE keys
              (map (fun i => slice i (i + D1.BATCH_SIZE) keys)
                   (batch_offsets D1.BATCH_SIZE (length keys))))
    as [Hle Hcat].
  { unfold batches. now rewrite offsets_explicit. }
  split; [now apply Forall_map | exact Hcat].
Qed.

(* ================================================================== *)
(** * Further properties: a whole upload, in full *)
(* ================================================================== *)

(** The upload loop against a writer that stores what it is given: rows,
    statements, invalidated pages and React state after the batches at the
    offsets the loop visits from [i] on. *)
Lemma upload_loop_trace (accepted : jsstring -> Prop)
    (f : jsstring -> list jsstring -> M nat)
    (sent : jsstring -> list jsstring -> list Stmt)
    (pid : jsstring) (h : Host) (keys : list jsstring) :
  sends_batch accepted h f sent ->
  Forall clean_key keys -> Forall accepted (pid :: keys) ->
  forall fuel i os acc s,
    offsets fuel i (length keys) Client.BATCH_SIZE = Some os ->
    exists s',
      for_loop fuel i (length keys) Client.BATCH_SIZE
        (Client.upload_batch f pid keys) acc h s
      = (Return (acc + length (skipn i keys)), s')
      /\ cards (db s')
         = cards (db s) ++ new_rows (next_id (db s)) pid (skipn i keys)
      /\ next_id (db s')
         = (next_id (db s) + Z.of_nat (length (skipn i keys)))%Z
      /\ cards_product_id_card_key_uq (db s')
         = match os with
           | [] => cards_product_id_card_key_uq (db s)
           | _ :: _ => false
           end
      /\ stmts s'
         = stmts s
           ++ flat_map
                (fun o => sent pid (slice o (o + Client.BATCH_SIZE) keys)) os
      /\ revalidated s'
         = revalidated s ++ flat_map (fun _ => card_pages pid) os
      /\ ui s' = ui s ++ flat_map (progress_events (length keys)) os.
Proof.
  intros Hf Hclean Hacc.
  assert (Hpos : 0 < Client.BATCH_SIZE) by (unfold Client.BATCH_SIZE; lia).
  induction fuel as [|fuel IH]; intros i os acc s; simpl.
  - destruct (length keys <=? i) eqn:E; [|discriminate].
    apply Nat.leb_le in E. intros [= <-]. exists s.
    rewrite skipn_all2 by exact E. simpl.
    rewrite !app_nil_r, Z.add_0_r, Nat.add_0_r. now repeat split.
  - destruct (length keys <=? i) eqn:E.
    + apply Nat.leb_le in E. intros [= <-]. exists s.
      rewrite skipn_all2 by exact E. simpl.
      rewrite !app_nil_r, Z.add_0_r, Nat.add_0_r. now repeat split.
    + apply Nat.leb_gt in E.
      destruct (offsets fuel (i + Client.BATCH_SIZE) (length keys)
                  Client.BATCH_SIZE) as [os'|] eqn:Hos; [|discriminate].
      intros [= <-].
      set (batch := slice i (i + Client.BATCH_SIZE) keys).
      assert (Hbatch : Forall accepted (pid :: batch)).
      { inversion Hacc; subst. constructor; [assumption|].
        now apply Forall_slice. }
      pose proof (Hf pid batch s (slice_clean keys _ _ Hclean) Hbatch
                    (slice_nonempty _ keys i _ Hpos E)) as Hrun.
      unfold bind at 1. unfold Client.upload_batch at 1.
      fold batch. unfold bind at 1. rewrite Hrun.
      unfold bind, emit, ret. cbn beta iota.
      match goal with
      | |- context [for_loop fuel _ _ _ _ ?a h ?s2] =>
          destruct (IH (i + Client.BATCH_SIZE) os' a s2 Hos)
            as (s' & Hloop & Hcards & Hnext & Huq & Hst & Hrev & Hui)
      end.
      exists s'. rewrite Hloop.
      cbn [db cards next_id cards_product_id_card_key_uq stmts revalidated ui]
        in Hcards, Hnext, Huq, Hst, Hrev, Hui.
      assert (Hsplit : skipn i keys
                       = batch ++ skipn (i + Client.BATCH_SIZE) keys).
      { unfold batch. rewrite slice_from.
        replace (skipn (i + Client.BATCH_SIZE) keys)
          with (skipn Client.BATCH_SIZE (skipn i keys));
          [symmetry; apply firstn_skipn|].
        rewrite skipn_skipn. f_equal. lia. }
      split; [|split; [|split; [|split; [|split; [|split]]]]].
      * f_equal. f_equal. rewrite Hsplit, length_app. lia.
      * rewrite Hcards, Hsplit, new_rows_app, <- app_assoc. reflexivity.
      * rewrite Hnext, Hsplit, length_app. lia.
      * rewrite Huq. now destruct os'.
      * cbn [flat_map]. rewrite Hst, <- app_assoc. reflexivity.
      * cbn [flat_map]. rewrite Hrev, <- app_assoc. reflexivity.
      * cbn [flat_map]. unfold progress_events at 2.
        rewrite Hui, <- !app_assoc. reflexivity.
Qed.

Lemma batch_offsets_nonempty (size total : nat) :
  0 < size -> 0 < total -> batch_offsets size total <> [].
Proof.
  intros Hs Ht H. apply (f_equal (@length nat)) in H.
  rewrite batch_offsets_length in H. simpl in H.
  assert (1 <= (total + size - 1) / size);
    [apply Nat.div_le_lower_bound|]; lia.
Qed.

(** A whole upload of a text with keys, against a writer that stores what
    it is given: the final state in full. *)
Lemma handleFileUpload_trace (accepted : jsstring -> Prop)
    (f : jsstring -> list jsstring -> M nat)
    (sent : jsstring -> list jsstring -> list Stmt)
    (pid : jsstring) (h : Host) (text : jsstring) (s : State) :
  sends_batch accepted h f sent -> normalize text <> [] ->
  Forall accepted (pid :: normalize text) ->
  let keys := normalize text in
  let N := length keys in
  Client.handleFileUpload f pid (Some text) h s
  = (Return tt,
     {| db := {| cards := cards (db s) ++ new_rows (next_id (db s)) pid keys;
                 next_id := next_id (db s) + Z.of_nat N;
                 cards_product_id_card_key_uq := false |};
        stmts := stmts s ++ upload_sent sent pid keys;
        revalidated :=
          revalidated s
          ++ flat_map (fun _ => card_pages pid)
                      (batch_offsets Client.BATCH_SIZE N);
        ui := ui s ++ start_events ++ [SetTotalCount N]
              ++ flat_map (progress_events N)
                          (batch_offsets Client.BATCH_SIZE N)
              ++ [ToastSuccess (UploadSuccess N); RouterRefresh]
              ++ reset_events |}).
Proof.
  intros Hf Hne Hacc. cbv zeta.
  assert (Hpos : 0 < Client.BATCH_SIZE) by (unfold Client.BATCH_SIZE; lia).
  pose proof (trim_and_filter_clean (split LF text)) as Hclean.
  fold (normalize text) in Hclean.
  unfold Client.handleFileUpload. rewrite length_eqb_0.
  remember (normalize text) as keys eqn:Ekeys. clear Ekeys.
  assert (HN : 0 < length keys)
    by (destruct keys; simpl; [congruence|lia]).
  destruct keys as [|k ks] eqn:Ek; [congruence|]. rewrite <- Ek in *.
  cbv [bind emit ret try_finally try_catch]. cbn beta iota.
  match goal with
  | |- context [for_loop _ 0 _ _ _ 0 h ?s0] =>
      destruct (upload_loop_trace accepted f sent pid h keys Hf Hclean Hacc
                  (length keys) 0
                  (batch_offsets Client.BATCH_SIZE (length keys)) 0 s0
                  (offsets_explicit _ _ Hpos))
        as (s1 & Hloop & Hcards & Hnext & Huq & Hst & Hrev & Hui)
  end.
  rewrite Hloop.
  assert (Hu : cards_product_id_card_key_uq (db s1) = false).
  { rewrite Huq.
    destruct (batch_offsets Client.BATCH_SIZE (length keys)) eqn:Eo;
      [now apply batch_offsets_nonempty in Eo | reflexivity]. }
  clear Huq. destruct s1 as [[c n u] q r e].
  cbn [db cards next_id cards_product_id_card_key_uq stmts revalidated ui
       skipn] in *.
  subst c n q r e u.
  unfold upload_sent, start_events, reset_events.
  cbn [Nat.add]. rewrite <- !app_assoc. reflexivity.
Qed.

(* ================================================================== *)
(** * Uploading the same file twice *)
(* ================================================================== *)

(** C9, as stated, fails on a file whose key the storage refuses.  The file
    with the one line "k", U+0000, "1" has one normalised key; uploaded
    twice by an administrator against the Postgres build and an empty
    inventory, both uploads finish (the handler catches the refusal and
    shows its message) and the product has no row, not two. *)
Lemma C9_counterexample :
  is_admin alice = true
  /\ normalize [107; 0; 49]%N = [[107; 0; 49]%N]
  /\ rows_of (js "p1") (db empty_state) = []
  /\ exists s1 s2,
       Client.handleFileUpload Postgres.addCardsBatch (js "p1")
         (Some [107; 0; 49]%N) alice empty_state
       = (Return tt, s1)
       /\ Client.handleFileUpload Postgres.addCardsBatch (js "p1")
            (Some [107; 0; 49]%N) alice s1
          = (Return tt, s2)
       /\ ui s1
          = start_events
            ++ [SetTotalCount 1;
                ToastError (ErrorMessage (message InvalidText))]
            ++ reset_events
       /\ rows_of (js "p1") (db s2) = []
       /\ length (rows_of (js "p1") (db s2))
          <> 2 * length (normalize [107; 0; 49]%N).
Proof.
  split; [reflexivity|]. split; [reflexivity|]. split; [reflexivity|].
  eexists. eexists.
  split; [vm_compute; reflexivity|].
  split; [vm_compute; reflexivity|].
  split; [reflexivity|]. split; [reflexivity|].
  cbn. discriminate.
Qed.

(** C9, amended.  There is no duplicate detection.  For an administrator, a
    text with [N > 0] normalised keys and a product without rows, running
    the upload twice against the D1 build completes both times (even if the
    legacy unique index was there at the start) and leaves exactly [2 * N]
    rows for the product, each with an identifier of its own.  When neither
    the product id nor a key holds U+0000 the same is true of the Postgres
    build, and in both builds the rows hold the normalised keys followed by
    the normalised keys again, an unpaired surrogate in a key stored as
    U+FFFD. *)
Theorem C9_uploading_twice_doubles_the_inventory
    (h : Host) (s : State) (pid text : jsstring)
    (Hadm : is_admin h = true)
    (Hkeys : normalize text <> [])
    (Hempty : rows_of pid (db s) = []) :
  (exists s1 s2,
      Client.handleFileUpload D1.addCardsBatch pid (Some text) h s
      = (Return tt, s1)
      /\ Client.handleFileUpload D1.addCardsBatch pid (Some text) h s1
         = (Return tt, s2)
      /\ length (rows_of pid (db s2)) = 2 * length (normalize text)
      /\ NoDup (map id (rows_of pid (db s2))))
  /\ (Forall nul_free (pid :: normalize text) ->
      forall addCardsBatch,
        In addCardsBatch [Postgres.addCardsBatch; D1.addCardsBatch] ->
        exists s1 s2,
          Client.handleFileUpload addCardsBatch pid (Some text) h s
          = (Return tt, s1)
          /\ Client.handleFileUpload addCardsBatch pid (Some text) h s1
             = (Return tt, s2)
          /\ map cardKey (rows_of pid (db s1))
             = map toWellFormed (normalize text)
          /\ map cardKey (rows_of pid (db s2))
             = map toWellFormed (normalize text ++ normalize text)
          /\ length (rows_of pid (db s2)) = 2 * length (normalize text)
          /\ NoDup (map id (rows_of pid (db s2)))).
Proof.
  assert (Htwice : forall f,
    (forall s0, exists s',
        Client.handleFileUpload f pid (Some text) h s0 = (Return tt, s')
        /\ cards (db s')
           = cards (db s0) ++ new_rows (next_id (db s0)) pid (normalize text)
        /\ next_id (db s')
           = (next_id (db s0) + Z.of_nat (length (normalize text)))%Z) ->
    exists s1 s2,
      Client.handleFileUpload f pid (Some text) h s = (Return tt, s1)
      /\ Client.handleFileUpload f pid (Some text) h s1 = (Return tt, s2)
      /\ map cardKey (rows_of pid (db s1))
         = map toWellFormed (normalize text)
      /\ map cardKey (rows_of pid (db s2))
         = map toWellFormed (normalize text ++ normalize text)
      /\ length (rows_of pid (db s2)) = 2 * length (normalize text)
      /\ NoDup (map id (rows_of pid (db s2)))).
  { intros f Hup.
    destruct (Hup s) as (s1 & Hrun1 & Hcards1 & Hnext1).
    destruct (Hup s1) as (s2 & Hrun2 & Hcards2 & Hnext2).
    exists s1, s2.
    assert (H1 : rows_of pid (db s1)
                 = new_rows (next_id (db s)) pid (normalize text)).
    { unfold rows_of in *.
      now rewrite Hcards1, filter_app, Hempty, rows_of_new_rows. }
    assert (H2 : rows_of pid (db s2)
                 = new_rows (next_id (db s)) pid
                            (normalize text ++ normalize text)).
    { unfold rows_of in *.
      rewrite Hcards2, filter_app, H1, rows_of_new_rows, Hnext1.
      now rewrite new_rows_app. }
    repeat split; try assumption.
    - now rewrite H1, new_rows_keys.
    - now rewrite H2, new_rows_keys.
    - rewrite H2, new_rows_length, length_app. lia.
    - rewrite H2. apply new_rows_NoDup. }
  assert (HD1 : forall s0, exists s',
             Client.handleFileUpload D1.addCardsBatch pid (Some text) h s0
             = (Return tt, s')
             /\ cards (db s')
                = cards (db s0)
                  ++ new_rows (next_id (db s0)) pid (normalize text)
             /\ next_id (db s')
                = (next_id (db s0)
                   + Z.of_nat (length (normalize text)))%Z).
  { intros s0. eexists.
    rewrite (handleFileUpload_trace _ _ _ pid h text s0
               (D1_sends h Hadm) Hkeys (Forall_True _ _)).
    split; [reflexivity|]. split; reflexivity. }
  split.
  - destruct (Htwice _ HD1) as (s1 & s2 & H1 & H2 & _ & _ & Hlen & Hids).
    now exists s1, s2.
  - intros Hfree f [<-|[<-|[]]]; apply Htwice; [|exact HD1].
    intros s0. eexists.
    rewrite (handleFileUpload_trace _ _ _ pid h text s0
               (Postgres_sends h Hadm) Hkeys Hfree).
    split; [reflexivity|]. split; reflexivity.
Qed.

(** The same two keys uploaded twice against the Postgres build, with the
    legacy index in place at the start: four rows. *)
Lemma C9_witness :
  is_admin alice = true
  /\ normalize (join LF [js "k1"; js "k1"]) = [js "k1"; js "k1"]
  /\ exists s1 s2,
       Client.handleFileUpload Postgres.addCardsBatch (js "p1")
         (Some (join LF [js "k1"; js "k1"])) alice empty_state
       = (Return tt, s1)
       /\ Client.handleFileUpload Postgres.addCardsBatch (js "p1")
            (Some (join LF [js "k1"; js "k1"])) alice s1
          = (Return tt, s2)
       /\ map cardKey (rows_of (js "p1") (db s2))
          = [js "k1"; js "k1"; js "k1"; js "k1"]
       /\ length (rows_of (js "p1") (db s2)) = 4.
Proof.
  split; [reflexivity|]. split; [reflexivity|].
  destruct (proj2 (C9_uploading_twice_doubles_the_inventory alice
                     empty_state (js "p1") (join LF [js "k1"; js "k1"])
                     eq_refl ltac:(discriminate) eq_refl)
              (nul_free_check
                 (js "p1" :: normalize (join LF [js "k1"; js "k1"]))
                 eq_refl)
              Postgres.addCardsBatch (or_introl eq_refl))
    as (s1 & s2 & H1 & H2 & _ & Hk & Hl & _).
  exists s1, s2. repeat split; assumption.
Defined.

Lemma all_white_join (lines : list jsstring) :
  all_white (join LF lines) = forallb all_white lines.
Proof.
  induction lines as [|l rest IH]; [reflexivity|].
  destruct rest as [|r rest'].
  - simpl. now rewrite andb_true_r.
  - rewrite join_cons by discriminate.
    rewrite all_white_app. cbn [forallb]. f_equal.
    change (all_white (LF :: join LF (r :: rest')))
      with (all_white (join LF (r :: rest'))).
    exact IH.
Qed.

(** A text has no key exactly when it is white space and line breaks. *)
Lemma normalize_nil_iff (text : jsstring) :
  normalize text = [] <-> all_white text = true.
Proof.
  rewrite <- (join_split LF text) at 2. rewrite all_white_join.
  unfold normalize. rewrite trim_and_filter_nonblank.
  induction (split LF text) as [|l ls IH]; simpl; [tauto|].
  destruct (all_white l); simpl; [exact IH|]. split; discriminate.
Qed.

(** A text without keys: the handler calls nothing and sends nothing. *)
Lemma handleFileUpload_no_keys (f : jsstring -> list jsstring -> M nat)
    (pid text : jsstring) (h : Host) (s : State) :
  normalize text = [] ->
  Client.handleFileUpload f pid (Some text) h s
  = (Return tt,
     {| db := db s; stmts := stmts s; revalidated := revalidated s;
        ui := ui s ++ start_events
              ++ [ToastError NoCards; SetUploading false] ++ reset_events |}).
Proof.
  intros Hnil. unfold Client.handleFileUpload. rewrite Hnil.
  cbv [bind emit ret try_finally try_catch]. cbn.
  rewrite <- !app_assoc. reflexivity.
Qed.

(** X6.  A file that holds only white space and line breaks (an empty file
    included) has no key: whatever the server action is, it is not called,
    no statement is sent and no row changes; the user is told that no cards
    were found and the upload state is reset.  Without a file nothing
    happens at all. *)
Theorem X6_upload_of_a_blank_file
    (f : jsstring -> list jsstring -> M nat) (pid text : jsstring)
    (h : Host) (s : State) (Hblank : all_white text = true) :
  Client.handleFileUpload f pid (Some text) h s
  = (Return tt,
     {| db := db s; stmts := stmts s; revalidated := revalidated s;
        ui := ui s ++ start_events
              ++ [ToastError NoCards; SetUploading false] ++ reset_events |})
  /\ Client.handleFileUpload f pid None h s = (Return tt, s).
Proof.
  split; [|reflexivity].
  apply handleFileUpload_no_keys. now apply normalize_nil_iff.
Qed.

Lemma X6_witness :
  all_white [32; 10; 9; 13; 10]%N = true
  /\ stmts (snd (Client.handleFileUpload D1.addCardsBatch (js "p1")
                   (Some [32; 10; 9; 13; 10]%N) alice empty_state)) = []
  /\ ui (snd (Client.handleFileUpload D1.addCardsBatch (js "p1")
                (Some [32; 10; 9; 13; 10]%N) alice empty_state))
     = start_events ++ [ToastError NoCards; SetUploading false]
       ++ reset_events.
Proof.
  split; [reflexivity|].
  pose proof (proj1 (X6_upload_of_a_blank_file D1.addCardsBatch (js "p1")
                    [32; 10; 9; 13; 10]%N alice empty_state eq_refl)) as E.
  split; [exact (f_equal (fun r => stmts (snd r)) E)
         | exact (f_equal (fun r => ui (snd r)) E)].
Defined.

(** A loop throws only what its body throws. *)
Lemma for_loop_throw (A : Type) (body : nat -> A -> M A) (P : Error -> Prop)
    (step len : nat) (h : Host) :
  (forall i a s0 e s1, body i a h s0 = (Throw e, s1) -> P e) ->
  forall fuel i acc s e s',
    for_loop fuel i len step body acc h s = (Throw e, s') -> P e.
Proof.
  intros Hbody. induction fuel as [|fuel IH]; intros i acc s e s'; simpl.
  - destruct (len <=? i); discriminate.
  - destruct (len <=? i); [discriminate|]. unfold bind.
    destruct (body i acc h s) as [[a|e0|] s1] eqn:E.
    + apply IH.
    + intros [= <- <-]. exact (Hbody _ _ _ _ _ E).
    + discriminate.
Qed.

(** The errors of [addCardsBatch], in either build. *)
Lemma addCardsBatch_errors (f : jsstring -> list jsstring -> M nat) :
  In f [Postgres.addCardsBatch; D1.addCardsBatch] ->
  forall pid keys h s e s',
    f pid keys h s = (Throw e, s') ->
    e = Unauthorized \/ e = InvalidText \/ e = UniqueViolation.
Proof.
  intros Hf pid keys h s e s'.
  destruct (is_admin h) eqn:Hadm.
  - destruct Hf as [<-|[<-|[]]].
    + unfold Postgres.addCardsBatch. rewrite checkAdmin_passes by exact Hadm.
      cbv zeta. destruct (length (trim_and_filter keys) =? 0);
        [discriminate|].
      unfold bind at 1. rewrite drop_legacy_index_spec.
      unfold bind at 1, db_insert_cards.
      destruct (existsb _ _); [intros [= <- _]; tauto|].
      destruct (violates_uq _ _ _); [intros [= <- _]; tauto|].
      discriminate.
    + unfold D1.addCardsBatch. rewrite checkAdmin_passes by exact Hadm.
      cbv zeta. destruct (length (trim_and_filter keys) =? 0);
        [discriminate|].
      unfold bind at 1. rewrite drop_legacy_index_spec.
      unfold bind at 1, D1.insert_in_chunks.
      match goal with
      | |- context [for_loop ?n ?i ?l ?st ?b ?a h ?s0] =>
          destruct (for_loop n i l st b a h s0) as [[[]|e0|] s1] eqn:E
      end; [discriminate| |discriminate].
      intros [= <- _]. right.
      apply (for_loop_throw unit _
               (fun e => e = InvalidText \/ e = UniqueViolation)
               _ _ h) in E; [exact E|].
      intros i a s2 e1 s3. unfold db_insert_cards.
      destruct (existsb _ _); [intros [= <- _]; tauto|].
      destruct (violates_uq _ _ _); [intros [= <- _]; tauto|].
      discriminate.
  - destruct (unauthorized_everywhere h s Hadm) as (H & _).
    destruct (H pid keys) as [Hp Hd].
    destruct Hf as [<-|[<-|[]]]; [rewrite Hp | rewrite Hd];
      intros [= <- _]; tauto.
Qed.

(** A batch of the upload loop throws only when the server action does. *)
Lemma upload_batch_throw (f : jsstring -> list jsstring -> M nat)
    (pid : jsstring) (keys : list jsstring) (h : Host)
    (i acc : nat) (s : State) (e : Error) (s' : State) :
  Client.upload_batch f pid keys i acc h s = (Throw e, s') ->
  exists p ks s0 s1, f p ks h s0 = (Throw e, s1).
Proof.
  unfold Client.upload_batch, bind, emit, ret.
  destruct (f pid (slice i (i + Client.BATCH_SIZE) keys) h s)
    as [[r|e0|] s1] eqn:E; [discriminate| |discriminate].
  intros [= <- <-]. now exists pid, (slice i (i + Client.BATCH_SIZE) keys), s, s1.
Qed.

(** How the upload handler can end: normally, after the five resets of its
    [finally] block; or, when the server action rejected with a value that
    has no [message] to read, by throwing from its [catch] block, again
    after the resets. *)
Lemma handleFileUpload_outcome
    (f : jsstring -> list jsstring -> M nat) (pid : jsstring)
    (file : option jsstring) (h : Host) (s : State) :
  match Client.handleFileUpload f pid file h s with
  | (Return _, s') =>
      file = None \/ exists before, ui s' = before ++ reset_events
  | (Throw e, s') =>
      e = CannotReadMessage
      /\ (exists before, ui s' = before ++ reset_events)
      /\ (exists p ks s0 s1, f p ks h s0 = (Throw Nullish, s1))
  | (Diverge, _) => True
  end.
Proof.
  destruct file as [text|]; [|now left].
  unfold Client.handleFileUpload. cbv zeta.
  match goal with
  | |- context [try_catch ?b _] => set (body := b)
  end.
  cbv [bind emit ret try_finally try_catch]. cbn beta iota.
  match goal with
  | |- context [body h ?s0] =>
      destruct (body h s0) as [[[]|e|] s1] eqn:Hbody
  end; cbn beta iota; [| |exact I].
  - right. exists (ui s1). cbn [ui]. unfold reset_events.
    now rewrite <- !app_assoc.
  - assert (Hcall : exists p ks s0 s1', f p ks h s0 = (Throw e, s1')).
    { subst body. cbv [bind emit ret] in Hbody.
      destruct (length (normalize text) =? 0); [discriminate|].
      match type of Hbody with
      | context [for_loop ?n ?i ?l ?st ?b ?a h ?s0] =>
          destruct (for_loop n i l st b a h s0) as [[r|e0|] s2] eqn:E
      end; [discriminate| |discriminate].
      injection Hbody as <- _.
      apply (for_loop_throw nat _
               (fun e => exists p ks s0 s1', f p ks h s0 = (Throw e, s1'))
               _ _ h) in E; [exact E|].
      intros i a s3 e1 s4. apply upload_batch_throw. }
    destruct (read_message e) as [msg|] eqn:Hmsg; unfold throw;
      cbn beta iota.
    + right. exists (ui s1 ++ [ToastError (ErrorMessage msg)]).
      cbn [ui]. unfold reset_events. now rewrite <- !app_assoc.
    + assert (He : e = Nullish) by (destruct e; (discriminate || reflexivity)).
      subst e. split; [reflexivity|]. split; [|exact Hcall].
      exists (ui s1). cbn [ui]. unfold reset_events.
      now rewrite <- !app_assoc.
Qed.

(** X7.  The upload handler ends in one of two ways.  It returns, and then
    the last things it did are the five resets of its [finally] block; or
    it throws, which it does only when the server action rejected with
    [null] or [undefined]: reading [e.message] in the [catch] block then
    throws, and the resets have still been done.  Neither build of
    [addCardsBatch] rejects that way, so against them the handler never
    throws. *)
Theorem X7_upload_handler_throws_only_on_a_nullish_rejection
    (f : jsstring -> list jsstring -> M nat) (pid : jsstring)
    (file : option jsstring) (h : Host) (s : State) :
  match Client.handleFileUpload f pid file h s with
  | (Return _, s') =>
      file = None \/ exists before, ui s' = before ++ reset_events
  | (Throw e, s') =>
      e = CannotReadMessage
      /\ (exists before, ui s' = before ++ reset_events)
      /\ (exists p ks s0 s1, f p ks h s0 = (Throw Nullish, s1))
  | (Diverge, _) => True
  end
  /\ (In f [Postgres.addCardsBatch; D1.addCardsBatch] ->
      forall e s', Client.handleFileUpload f pid file h s <> (Throw e, s')).
Proof.
  pose proof (handleFileUpload_outcome f pid file h s) as H.
  split; [exact H|].
  intros Hf e s' Hrun. rewrite Hrun in H.
  destruct H as (_ & _ & p & ks & s0 & s1 & Hcall).
  destruct (addCardsBatch_errors f Hf p ks h s0 Nullish s1 Hcall)
    as [E|[E|E]]; discriminate.
Qed.

(** An upload whose first call is refused: nothing but the message. *)
Lemma handleFileUpload_refused (f : jsstring -> list jsstring -> M nat)
    (e : Error) (pid text : jsstring) (h : Host) (s : State) :
  (forall p ks s0, f p ks h s0 = (Throw e, s0)) ->
  read_message e = Some (message e) ->
  normalize text <> [] ->
  Client.handleFileUpload f pid (Some text) h s
  = (Return tt,
     {| db := db s; stmts := stmts s; revalidated := revalidated s;
        ui := ui s ++ start_events
              ++ [SetTotalCount (length (normalize text));
                  ToastError (ErrorMessage (message e))]
              ++ reset_events |}).
Proof.
  intros Hthrow Hmsg Hkeys.
  unfold Client.handleFileUpload. rewrite length_eqb_0.
  destruct (normalize text) as [|k ks] eqn:E; [congruence|].
  cbn [length for_loop Nat.leb]. unfold Client.upload_batch at 1.
  cbv [bind emit ret try_finally try_catch]. cbn beta iota.
  rewrite Hthrow. cbn beta iota. rewrite Hmsg.
  cbn. rewrite <- !app_assoc. reflexivity.
Qed.

(** X8.  When the caller is not an administrator, an upload of a file with
    keys stops at the first batch: the handler returns normally, no
    statement is sent, no row changes and nothing is invalidated; the user
    sees the total, then the message "Unauthorized", then the reset. *)
Theorem X8_unauthorized_upload_stops_at_the_first_batch
    (h : Host) (s : State) (pid text : jsstring)
    (Hnot : is_admin h = false) (Hkeys : normalize text <> []) :
  forall addCardsBatch,
    In addCardsBatch [Postgres.addCardsBatch; D1.addCardsBatch] ->
    Client.handleFileUpload addCardsBatch pid (Some text) h s
    = (Return tt,
       {| db := db s; stmts := stmts s; revalidated := revalidated s;
          ui := ui s ++ start_events
                ++ [SetTotalCount (length (normalize text));
                    ToastError (ErrorMessage (message Unauthorized))]
                ++ reset_events |}).
Proof.
  intros f Hf.
  assert (Hthrow : forall p ks s0, f p ks h s0 = (Throw Unauthorized, s0)).
  { intros p ks s0.
    destruct (unauthorized_everywhere h s0 Hnot) as (H & _).
    destruct (H p ks) as [Hp Hd].
    destruct Hf as [<-|[<-|[]]]; assumption. }
  now apply handleFileUpload_refused.
Qed.

Lemma X8_witness :
  is_admin mallory = false
  /\ Client.handleFileUpload D1.addCardsBatch (js "p1") (Some (js "k1"))
       mallory empty_state
     = (Return tt,
        {| db := db empty_state; stmts := []; revalidated := [];
           ui := start_events
                 ++ [SetTotalCount 1; ToastError (ErrorMessage "Unauthorized")]
                 ++ reset_events |}).
Proof.
  split; [reflexivity|].
  exact (X8_unauthorized_upload_stops_at_the_first_batch mallory empty_state
           (js "p1") (js "k1") eq_refl ltac:(discriminate)
           D1.addCardsBatch (or_intror (or_introl eq_refl))).
Defined.

(** The statements of a whole upload, read off call by call. *)
Lemma upload_sent_inserts (sent : jsstring -> list jsstring -> list Stmt)
    (P : nat -> Prop) (pid : jsstring) (keys : list jsstring) :
  (forall b, inserted_keys (sent pid b) = b) ->
  (forall b, b <> [] -> length b <= Client.BATCH_SIZE ->
             Forall P (insert_sizes (sent pid b))) ->
  inserted_keys (upload_sent sent pid keys) = keys
  /\ Forall P (insert_sizes (upload_sent sent pid keys)).
Proof.
  intros Hkeys HP.
  assert (Hpos : 0 < Client.BATCH_SIZE) by (unfold Client.BATCH_SIZE; lia).
  unfold upload_sent.
  assert (Hgen : forall os,
            (forall i, In i os -> i < length keys) ->
            inserted_keys
              (flat_map
                 (fun i => sent pid (slice i (i + Client.BATCH_SIZE) keys)) os)
            = concat (map (fun i => slice i (i + Client.BATCH_SIZE) keys) os)
            /\ Forall P
                 (insert_sizes
                    (flat_map
                       (fun i => sent pid
                                   (slice i (i + Client.BATCH_SIZE) keys))
                       os))).
  { induction os as [|o os IH]; intros Hlt; [now split|].
    destruct IH as [IHk IHp]; [intros i Hi; apply Hlt; now right|].
    cbn [flat_map map concat].
    rewrite inserted_keys_app, insert_sizes_app, Hkeys, IHk.
    split; [reflexivity|]. apply Forall_app. split; [|exact IHp].
    apply HP.
    - apply slice_nonempty; [exact Hpos | apply Hlt; now left].
    - rewrite slice_from, length_firstn. lia. }
  destruct (Hgen (batch_offsets Client.BATCH_SIZE (length keys)))
    as [Hk Hp]; [intros i; now apply batch_offsets_below|].
  split; [|exact Hp].
  rewrite Hk.
  apply (concat_slices _ keys Client.BATCH_SIZE (length keys) 0).
  now apply offsets_explicit.
Qed.

Lemma Postgres_upload_inserts (pid : jsstring) (keys : list jsstring) :
  length (insert_sizes (upload_sent Postgres_sent pid keys))
  = length (batch_offsets Client.BATCH_SIZE (length keys)).
Proof.
  unfold upload_sent.
  induction (batch_offsets Client.BATCH_SIZE (length keys)) as [|o os IH];
    [reflexivity|].
  cbn [flat_map]. rewrite insert_sizes_app, length_app, IH. reflexivity.
Qed.

(** X9.  A successful upload, seen from the page.  For an administrator
    and a file with [N > 0] keys, against the D1 build, and against the
    Postgres build when neither the product id nor a key holds U+0000 (a
    text its storage refuses), the handler shows the total [N], then after each of the [ceil(N / 50)]
    batches the number of keys processed so far (never more than [N], and
    exactly [N] after the last batch) and a percentage, then one success
    message that carries the count [N] summed over all batches, a refresh,
    and the reset. *)
Theorem X9_successful_upload_reports_every_batch_and_the_total
    (h : Host) (s : State) (pid text : jsstring)
    (Hadm : is_admin h = true) (Hkeys : normalize text <> []) :
  let N := length (normalize text) in
  let offs := batch_offsets Client.BATCH_SIZE N in
  let shown :=
    ui s ++ start_events ++ [SetTotalCount N]
    ++ flat_map (progress_events N) offs
    ++ [ToastSuccess (UploadSuccess N); RouterRefresh] ++ reset_events in
  ui (snd (Client.handleFileUpload D1.addCardsBatch pid (Some text) h s))
  = shown
  /\ (Forall nul_free (pid :: normalize text) ->
      ui (snd (Client.handleFileUpload Postgres.addCardsBatch pid
                 (Some text) h s))
      = shown)
  /\ length offs = (N + Client.BATCH_SIZE - 1) / Client.BATCH_SIZE
  /\ (forall i, In i offs ->
        0 < Nat.min (i + Client.BATCH_SIZE) N <= N)
  /\ exists front o,
       offs = front ++ [o] /\ Nat.min (o + Client.BATCH_SIZE) N = N.
Proof.
  intros N offs shown.
  assert (Hpos : 0 < Client.BATCH_SIZE) by (unfold Client.BATCH_SIZE; lia).
  assert (HN : 0 < N)
    by (unfold N; destruct (normalize text); simpl; [congruence|lia]).
  split; [|split; [|split; [apply batch_offsets_length|split]]].
  - now rewrite (handleFileUpload_trace _ _ _ pid h text s
                   (D1_sends h Hadm) Hkeys (Forall_True _ _)).
  - intros Hfree.
    now rewrite (handleFileUpload_trace _ _ _ pid h text s
                   (Postgres_sends h Hadm) Hkeys Hfree).
  - intros i Hi. apply batch_offsets_below in Hi; [lia | exact Hpos].
  - destruct (exists_last (batch_offsets_nonempty _ N Hpos HN))
      as (front & o & Ho).
    exists front, o. split; [exact Ho|].
    pose proof (offsets_explicit Client.BATCH_SIZE N Hpos) as Hos.
    destruct (offsets_spec _ _ _ _ _ Hos) as (Hnth & _ & Hend).
    rewrite Ho in Hnth, Hend.
    rewrite length_app in Hnth, Hend. simpl in Hnth, Hend.
    specialize (Hnth (length front) ltac:(lia)).
    rewrite nth_middle in Hnth. lia.
Qed.

Lemma X9_witness :
  is_admin alice = true
  /\ ui (snd (Client.handleFileUpload Postgres.addCardsBatch (js "p1")
                (Some (join LF (repeat (js "k") 120))) alice empty_state))
     = start_events
       ++ [SetTotalCount 120;
           SetProcessedCount 50; SetProgress 42;
           SetProcessedCount 100; SetProgress 83;
           SetProcessedCount 120; SetProgress 125;
           ToastSuccess (UploadSuccess 120); RouterRefresh]
       ++ reset_events.
Proof.
  split; [reflexivity|].
  rewrite (proj1 (proj2
             (X9_successful_upload_reports_every_batch_and_the_total
                alice empty_state (js "p1")
                (join LF (repeat (js "k") 120)) eq_refl
                ltac:(vm_compute; discriminate)))).
  - vm_compute. reflexivity.
  - apply nul_free_check. vm_compute. reflexivity.
Defined.

(** X10.  The statements of a whole upload.  For an administrator and any
    file, against the D1 build the handler finishes and every insert carries
    at most 10 keys; against the Postgres build, when neither the product id
    nor a key of the file holds U+0000 (a text its storage refuses), the
    handler finishes, every
    insert statement carries between 1 and 50 keys and there is one per
    batch, [ceil(N / 50)] in all; and in both the inserts together carry the
    normalised keys of the file, once each and in the order of the file. *)
Theorem X10_upload_insert_statements
    (h : Host) (s : State) (pid text : jsstring)
    (Hadm : is_admin h = true) :
  let keys := normalize text in
  (Forall nul_free (pid :: keys) ->
   exists s' sent,
      Client.handleFileUpload Postgres.addCardsBatch pid (Some text) h s
      = (Return tt, s')
      /\ stmts s' = stmts s ++ sent
      /\ Forall (fun n => 0 < n <= Client.BATCH_SIZE) (insert_sizes sent)
      /\ length (insert_sizes sent)
         = (length keys + Client.BATCH_SIZE - 1) / Client.BATCH_SIZE
      /\ inserted_keys sent = keys)
  /\ (exists s' sent,
         Client.handleFileUpload D1.addCardsBatch pid (Some text) h s
         = (Return tt, s')
         /\ stmts s' = stmts s ++ sent
         /\ Forall (fun n => n <= D1.BATCH_SIZE) (insert_sizes sent)
         /\ inserted_keys sent = keys).
Proof.
  intros keys. destruct keys as [|k ks] eqn:E; subst keys.
  - rewrite !(handleFileUpload_no_keys _ pid text h s E).
    split; [intros _|]; eexists; exists []; rewrite app_nil_r;
      (split; [reflexivity|]); repeat split; constructor.
  - assert (Hne : normalize text <> []) by congruence.
    rewrite <- E. split.
    + intros Hfree.
      rewrite (handleFileUpload_trace _ _ _ pid h text s
                 (Postgres_sends h Hadm) Hne Hfree).
      destruct (upload_sent_inserts Postgres_sent
                  (fun n => 0 < n <= Client.BATCH_SIZE) pid (normalize text))
        as [Hk Hp].
      * intros b. apply Postgres_sent_inserts.
      * intros b Hb Hlen. cbn. constructor; [|constructor].
        destruct b; simpl in *; [congruence|lia].
      * eexists. exists (upload_sent Postgres_sent pid (normalize text)).
        repeat split; try assumption.
        rewrite Postgres_upload_inserts. apply batch_offsets_length.
    + rewrite (handleFileUpload_trace _ _ _ pid h text s
                 (D1_sends h Hadm) Hne (Forall_True _ _)).
      destruct (upload_sent_inserts D1_sent
                  (fun n => n <= D1.BATCH_SIZE) pid (normalize text))
        as [Hk Hp].
      * intros b. apply D1_sent_inserts.
      * intros b _ _. apply D1_sent_inserts.
      * eexists. exists (upload_sent D1_sent pid (normalize text)).
        repeat split; assumption.
Qed.

Lemma X10_witness :
  is_admin alice = true
  /\ insert_sizes
       (stmts (snd (Client.handleFileUpload Postgres.addCardsBatch (js "p1")
                      (Some (join LF (repeat (js "k") 120)))
                      alice empty_state)))
     = [50; 50; 20]
  /\ insert_sizes
       (stmts (snd (Client.handleFileUpload D1.addCardsBatch (js "p1")
                      (Some (join LF (repeat (js "k") 63)))
                      alice empty_state)))
     = [10; 10; 10; 10; 10; 10; 3]
  /\ exists s' sent,
       Client.handleFileUpload D1.addCardsBatch (js "p1")
         (Some (join LF (repeat (js "k") 63))) alice empty_state
       = (Return tt, s')
       /\ stmts s' = stmts empty_state ++ sent
       /\ Forall (fun n => n <= D1.BATCH_SIZE) (insert_sizes sent)
       /\ inserted_keys sent = normalize (join LF (repeat (js "k") 63)).
Proof.
  split; [reflexivity|].
  split; [vm_compute; reflexivity|]. split; [vm_compute; reflexivity|].
  exact (proj2 (X10_upload_insert_statements alice empty_state (js "p1")
                  (join LF (repeat (js "k") 63)) eq_refl)).
Defined.

(* ================================================================== *)
(** * Further properties: [addCards], the form's way in *)
(* ================================================================== *)

Lemma void_then_ret (A : Type) (m : M unit) (a : A) (h : Host) (s : State) :
  m h s = (void (fst ((m ;; ret a) h s)), snd ((m ;; ret a) h s)).
Proof. unfold bind, ret. now destruct (m h s) as [[[]|e|] s']. Qed.

Lemma void_bind (A B : Type) (m : M A) (k1 : A -> M unit) (k2 : A -> M B)
    (h : Host) (s : State) :
  (forall x s0, k1 x h s0 = (void (fst (k2 x h s0)), snd (k2 x h s0))) ->
  bind m k1 h s = (void (fst (bind m k2 h s)), snd (bind m k2 h s)).
Proof.
  intros H. unfold bind. destruct (m h s) as [[x|e|] s']; [apply H| |];
    reflexivity.
Qed.

Lemma addCards_as_batch (h : Host) (s : State) (pid raw : jsstring) :
  Postgres.addCards pid raw h s
  = (void (fst (Postgres.addCardsBatch pid (split LF raw) h s)),
     snd (Postgres.addCardsBatch pid (split LF raw) h s))
  /\ D1.addCards pid raw h s
     = (void (fst (D1.addCardsBatch pid (split LF raw) h s)),
        snd (D1.addCardsBatch pid (split LF raw) h s)).
Proof.
  unfold Postgres.addCards, Postgres.addCardsBatch, D1.addCards,
    D1.addCardsBatch, normalize.
  split; apply void_bind; intros [] s0;
    destruct (length (trim_and_filter (split LF raw)) =? 0);
    try reflexivity;
    apply void_bind; intros [] s1; apply void_bind; intros [] s2;
    apply void_then_ret.
Qed.

(** X11.  [addCards] is [addCardsBatch] applied to the lines of the text,
    with the count dropped: in each build and for every caller, text and
    state, the two leave the same state and end the same way (both return,
    or both throw the same error). *)
Theorem X11_addCards_is_addCardsBatch_on_the_lines
    (h : Host) (s : State) (pid raw : jsstring) :
  Postgres.addCards pid raw h s
  = (void (fst (Postgres.addCardsBatch pid (split LF raw) h s)),
     snd (Postgres.addCardsBatch pid (split LF raw) h s))
  /\ D1.addCards pid raw h s
     = (void (fst (D1.addCardsBatch pid (split LF raw) h s)),
        snd (D1.addCardsBatch pid (split LF raw) h s)).
Proof. apply addCards_as_batch. Qed.

Lemma State_db_eq (a b : Store) :
  cards a = cards b -> next_id a = next_id b ->
  cards_product_id_card_key_uq a = cards_product_id_card_key_uq b ->
  a = b.
Proof. destruct a, b; simpl; intros; now subst. Qed.



(* ================================================================== *)
(** * Further properties: deleting *)
(* ================================================================== *)

(** A freshly inserted row passes the bulk delete's condition at any time. *)
Lemma delete_all_where_new_rows (h : Host) (pid : jsstring) (n : Z)
    (ks : list jsstring) :
  filter (delete_all_where h pid) (new_rows n pid ks) = new_rows n pid ks
  /\ filter (fun c => negb (delete_all_where h pid c)) (new_rows n pid ks)
     = [].
Proof.
  revert n. induction ks as [|k ks IH]; intros n; [now split|].
  destruct (IH (n + 1)%Z) as [IH1 IH2]. cbn [new_rows filter].
  assert (E : delete_all_where h pid
                {| id := n; productId := pid; cardKey := toWellFormed k;
                   isUsed := Some false; reservedAt := None |} = true).
  { unfold delete_all_where. cbn [productId isUsed reservedAt].
    now rewrite jsstring_eqb_refl. }
  rewrite E. cbn [negb]. now rewrite IH1, IH2.
Qed.

Lemma rows_of_nil_keeps (h : Host) (pid : jsstring) (l : list Card) :
  filter (fun c => jsstring_eqb (productId c) pid) l = [] ->
  filter (fun c => negb (delete_all_where h pid c)) l = l
  /\ filter (delete_all_where h pid) l = [].
Proof.
  induction l as [|c l IH]; [now split|]. cbn [filter].
  destruct (jsstring_eqb (productId c) pid) eqn:E; [discriminate|].
  assert (W : delete_all_where h pid c = false)
    by (unfold delete_all_where; now rewrite E).
  rewrite W. cbn [negb]. intros H. destruct (IH H) as [-> ->]. now split.
Qed.

(** X13.  Insert, then clear: after [addCardsBatch] has stored [N] keys
    for a product, [deleteAllCards] on that product removes those [N] rows
    together with the rows that were removable before, whatever the clock
    says; on a product that had no rows it reports exactly [N] and storage
    holds the rows it held before the insert. *)
Theorem X13_clear_all_undoes_an_insert
    (h : Host) (s : State) (pid : jsstring) (keys : list jsstring)
    (Hadm : is_admin h = true) :
  let N := length (trim_and_filter keys) in
  exists s1 s2,
    D1.addCardsBatch pid keys h s = (Return N, s1)
    /\ D1.deleteAllCards pid h s1
       = (Return (length (filter (delete_all_where h pid) (cards (db s)))
                  + N), s2)
    /\ cards (db s2)
       = filter (fun c => negb (delete_all_where h pid c)) (cards (db s))
    /\ (rows_of pid (db s) = [] ->
        D1.deleteAllCards pid h s1 = (Return N, s2)
        /\ cards (db s2) = cards (db s)).
Proof.
  intros N.
  destruct (D1_stores_batch pid keys h s Hadm)
    as (s1 & Hrun & Hcards & _).
  fold N in Hrun. exists s1. eexists. split; [exact Hrun|].
  rewrite deleteAllCards_unfold by exact Hadm.
  rewrite Hcards, !filter_app.
  destruct (delete_all_where_new_rows h pid (next_id (db s))
              (trim_and_filter keys)) as [-> ->].
  rewrite length_app, new_rows_length, app_nil_r. fold N.
  split; [reflexivity|]. split; [reflexivity|].
  intros Hempty.
  destruct (rows_of_nil_keeps h pid (cards (db s)) Hempty) as [-> ->].
  now split.
Qed.

Lemma X13_witness :
  is_admin alice = true
  /\ exists s1 s2,
       D1.addCardsBatch (js "p1") [js "a"; js "b"; js "a"] alice
         (state_of [row 1 "p2" "z" (Some true) None] 2 true)
       = (Return 3, s1)
       /\ D1.deleteAllCards (js "p1") alice s1 = (Return 3, s2)
       /\ cards (db s2) = [row 1 "p2" "z" (Some true) None].
Proof.
  split; [reflexivity|].
  destruct (X13_clear_all_undoes_an_insert alice
              (state_of [row 1 "p2" "z" (Some true) None] 2 true)
              (js "p1") [js "a"; js "b"; js "a"] eq_refl)
    as (s1 & s2 & H1 & _ & _ & H).
  destruct (H eq_refl) as [H2 H3]. exists s1, s2. now repeat split.
Defined.

Lemma filter_twice (A : Type) (f : A -> bool) (l : list A) :
  filter f (filter (fun x => negb (f x)) l) = []
  /\ filter (fun x => negb (f x)) (filter (fun x => negb (f x)) l)
     = filter (fun x => negb (f x)) l.
Proof.
  induction l as [|x l [IH1 IH2]]; [now split|]. cbn [filter].
  destruct (f x) eqn:E; cbn [negb filter]; rewrite ?E; cbn [negb];
    [now split|]. now rewrite IH1, IH2.
Qed.

(** X14.  Clearing twice changes nothing more: at the same clock a second
    [deleteAllCards] on the product reports 0 and leaves the rows as the
    first left them.  And a clear never reaches beyond its product or its
    condition: the rows of every other product, and every used row, are the
    same before and after. *)
Theorem X14_clear_all_is_idempotent_and_local
    (h : Host) (s : State) (pid : jsstring) (Hadm : is_admin h = true) :
  exists n s1 s2,
    D1.deleteAllCards pid h s = (Return n, s1)
    /\ D1.deleteAllCards pid h s1 = (Return 0, s2)
    /\ db s2 = db s1
    /\ (forall other, other <> pid ->
          rows_of other (db s1) = rows_of other (db s))
    /\ filter used (cards (db s1)) = filter used (cards (db s)).
Proof.
  rewrite deleteAllCards_unfold by exact Hadm. do 3 eexists.
  split; [reflexivity|].
  rewrite deleteAllCards_unfold by exact Hadm.
  cbn [db cards next_id cards_product_id_card_key_uq].
  destruct (filter_twice _ (delete_all_where h pid) (cards (db s)))
    as [-> ->].
  split; [reflexivity|]. split; [reflexivity|]. split.
  - intros other Hother. unfold rows_of. cbn [cards].
    induction (cards (db s)) as [|c l IH]; [reflexivity|]. cbn [filter].
    destruct (delete_all_where h pid c) eqn:E; cbn [negb filter].
    + unfold delete_all_where in E.
      apply andb_true_iff in E. destruct E as [E _].
      apply andb_true_iff in E. destruct E as [E _].
      apply jsstring_eqb_eq in E.
      destruct (jsstring_eqb (productId c) other) eqn:E2; [|exact IH].
      apply jsstring_eqb_eq in E2. congruence.
    + now rewrite IH.
  - induction (cards (db s)) as [|c l IH]; [reflexivity|]. cbn [filter].
    destruct (delete_all_where h pid c) eqn:E; cbn [negb filter].
    + unfold delete_all_where in E.
      apply andb_true_iff in E. destruct E as [E _].
      apply andb_true_iff in E. destruct E as [_ E].
      apply negb_true_iff in E. fold (used c) in E. now rewrite E.
    + now rewrite IH.
Qed.

Lemma X14_witness :
  is_admin alice = true
  /\ exists n s1 s2,
       D1.deleteAllCards (js "p1") alice
         (state_of [row 1 "p1" "a" None None;
                    row 2 "p2" "b" None None;
                    row 3 "p1" "c" (Some true) None] 4 false)
       = (Return n, s1)
       /\ D1.deleteAllCards (js "p1") alice s1 = (Return 0, s2)
       /\ db s2 = db s1.
Proof.
  split; [reflexivity|].
  destruct (X14_clear_all_is_idempotent_and_local alice
              (state_of [row 1 "p1" "a" None None;
                         row 2 "p2" "b" None None;
                         row 3 "p1" "c" (Some true) None] 4 false)
              (js "p1") eq_refl)
    as (n & s1 & s2 & H1 & H2 & H3 & _).
  exists n, s1, s2. now repeat split.
Defined.

(** X15.  The bulk delete is never more permissive than the single
    delete: a row that [deleteAllCards] would remove at some clock is one
    that [deleteCard] accepts at that clock.  The converse fails for a
    reservation exactly 60 seconds old, which the single delete accepts and
    the bulk delete keeps. *)
Theorem X15_bulk_delete_within_single_delete
    (h : Host) (s : State) (pid : jsstring) (c : Card)
    (Hadm : is_admin h = true)
    (Hfound : find (fun r => Z.eqb (id r) (id c)) (cards (db s)) = Some c)
    (Hbulk : delete_all_where h pid c = true) :
  exists s', deleteCard (id c) h s = (Return tt, s').
Proof.
  rewrite deleteCard_unfold by exact Hadm. rewrite Hfound. cbv zeta.
  apply delete_all_where_iff in Hbulk. destruct Hbulk as (_ & Hu & Hr).
  assert (Hu' : used c = false)
    by (unfold used; destruct (isUsed c) as [[|]|]; congruence).
  rewrite Hu'.
  assert (Hdiv : (clock_ms h / 1000 * 1000 <= clock_ms h)%Z).
  { pose proof (Z.mod_pos_bound (clock_ms h) 1000 ltac:(lia)) as Hm.
    rewrite Zmod_eq in Hm by lia. lia. }
  destruct (reservedAt c) as [t|]; [|now eexists].
  specialize (Hr t eq_refl).
  replace (t >? clock_ms h - 60 * 1000)%Z with false; [now eexists|].
  symmetry. rewrite Z.gtb_ltb. apply Z.ltb_ge. lia.
Qed.

Lemma X15_witness :
  is_admin alice = true
  /\ (exists s',
         deleteCard 1 alice
           (state_of [row 1 "p1" "a" None (Some 900000%Z)] 2 false)
         = (Return tt, s'))
  /\ delete_all_where alice (js "p1")
       (row 2 "p1" "b" None (Some 940500%Z)) = false
  /\ exists s',
       deleteCard 2 alice
         (state_of [row 2 "p1" "b" None (Some 940500%Z)] 3 false)
       = (Return tt, s').
Proof.
  split; [reflexivity|]. split; [|split; [reflexivity|]].
  - exact (X15_bulk_delete_within_single_delete alice
             (state_of [row 1 "p1" "a" None (Some 900000%Z)] 2 false)
             (js "p1") (row 1 "p1" "a" None (Some 900000%Z))
             eq_refl eq_refl eq_refl).
  - eexists. vm_compute. reflexivity.
Defined.

(* ================================================================== *)
(** * Further properties: identifiers *)
(* ================================================================== *)

Lemma store_wf_append (d d' : Store) (pid : jsstring) (ks : list jsstring) :
  store_wf d ->
  cards d' = cards d ++ new_rows (next_id d) pid ks ->
  next_id d' = (next_id d + Z.of_nat (length ks))%Z ->
  store_wf d'.
Proof.
  intros [Hnd Hlt] Hc Hn. unfold store_wf. rewrite Hc, Hn, map_app. split.
  - apply NoDup_app; [exact Hnd | apply new_rows_NoDup |].
    intros i H1 H2. apply in_map_iff in H1, H2.
    destruct H1 as (c1 & <- & Hc1). destruct H2 as (c2 & E & Hc2).
    apply Hlt in Hc1. apply new_rows_ids in Hc2. lia.
  - intros c Hin. apply in_app_or in Hin. destruct Hin as [Hin|Hin].
    + apply Hlt in Hin. lia.
    + apply new_rows_ids in Hin. lia.
Qed.

Lemma NoDup_map_filter (A B : Type) (f : A -> B) (g : A -> bool)
    (l : list A) :
  NoDup (map f l) -> NoDup (map f (filter g l)).
Proof.
  induction l as [|x l IH]; simpl; [trivial|].
  intros H. inversion H as [|? ? Hx Hl]; subst.
  destruct (g x); [|now apply IH]. simpl. constructor; [|now apply IH].
  intros Hin. apply Hx. apply in_map_iff in Hin.
  destruct Hin as (y & E & Hy). apply filter_In in Hy.
  apply in_map_iff. exists y. tauto.
Qed.

Lemma store_wf_filter (d d' : Store) (g : Card -> bool) :
  store_wf d ->
  cards d' = filter g (cards d) -> next_id d' = next_id d ->
  store_wf d'.
Proof.
  intros [Hnd Hlt] Hc Hn. unfold store_wf. rewrite Hc, Hn. split.
  - now apply NoDup_map_filter.
  - intros c Hin. apply filter_In in Hin. now apply Hlt.
Qed.

Lemma store_wf_same (d d' : Store) :
  store_wf d -> cards d' = cards d -> next_id d' = next_id d -> store_wf d'.
Proof. intros H Hc Hn. unfold store_wf. now rewrite Hc, Hn. Qed.

Lemma store_wf_after_batch (h : Host) (s : State) (pid : jsstring)
    (keys : list jsstring) :
  store_wf (db s) ->
  store_wf (db (snd (Postgres.addCardsBatch pid keys h s)))
  /\ store_wf (db (snd (D1.addCardsBatch pid keys h s))).
Proof.
  intros Hwf. destruct (is_admin h) eqn:Hadm.
  - split.
    + destruct (nul_free_dec (pid :: trim_and_filter keys)) as [Hfree|Hnot].
      * destruct (Postgres_stores_batch pid keys h s Hadm Hfree)
          as (s1 & -> & Hc1 & Hn1).
        eapply store_wf_append; eassumption.
      * destruct (trim_and_filter keys) as [|k ks] eqn:E.
        -- now destruct (addCardsBatch_nothing_to_do pid keys h s Hadm E)
             as [-> _].
        -- rewrite <- E in Hnot.
           rewrite Postgres_addCardsBatch_refused
             by (assumption || congruence).
           eapply store_wf_same; [exact Hwf | reflexivity | reflexivity].
    + destruct (D1_stores_batch pid keys h s Hadm) as (s2 & -> & Hc2 & Hn2).
      eapply store_wf_append; eassumption.
  - destruct (unauthorized_everywhere h s Hadm) as (H & _).
    destruct (H pid keys) as [-> ->]. now split.
Qed.

(** What the pieces of an action keep, the action keeps. *)
Lemma preserves_ret (A : Type) (P : Store -> Prop) (a : A) :
  preserves P (ret a).
Proof. now intros h s. Qed.

Lemma preserves_emit (P : Store -> Prop) (e : UIEvent) :
  preserves P (emit e).
Proof. now intros h s. Qed.

Lemma preserves_bind (A B : Type) (P : Store -> Prop) (m : M A)
    (k : A -> M B) :
  preserves P m -> (forall a, preserves P (k a)) ->
  preserves P (bind m k).
Proof.
  intros Hm Hk h s Hs. unfold bind. specialize (Hm h s Hs).
  destruct (m h s) as [[a|e|] s1]; cbn [snd] in *; [|assumption..].
  now apply Hk.
Qed.

Lemma preserves_try_catch (A : Type) (P : Store -> Prop) (m : M A)
    (handler : Error -> M A) :
  preserves P m -> (forall e, preserves P (handler e)) ->
  preserves P (try_catch m handler).
Proof.
  intros Hm Hk h s Hs. unfold try_catch. specialize (Hm h s Hs).
  destruct (m h s) as [[a|e|] s1]; cbn [snd] in *; [assumption| |assumption].
  now apply Hk.
Qed.

Lemma preserves_try_finally (A : Type) (P : Store -> Prop) (m : M A)
    (f : M unit) :
  preserves P m -> preserves P f -> preserves P (try_finally m f).
Proof.
  intros Hm Hf h s Hs. unfold try_finally. specialize (Hm h s Hs).
  destruct (m h s) as [[a|e|] s1]; cbn [snd] in *; [| |assumption];
    specialize (Hf h s1 Hm); destruct (f h s1) as [[[]|e'|] s2];
    cbn [snd] in *; assumption.
Qed.

Lemma preserves_for_loop (A : Type) (P : Store -> Prop)
    (body : nat -> A -> M A) (len step : nat) :
  (forall i a, preserves P (body i a)) ->
  forall fuel i acc, preserves P (for_loop fuel i len step body acc).
Proof.
  intros Hbody. induction fuel as [|fuel IH]; intros i acc; simpl.
  - destruct (len <=? i); now intros h s.
  - destruct (len <=? i); [now intros h s|].
    apply preserves_bind; [apply Hbody | intros a; apply IH].
Qed.

(** The upload handler keeps what every call of the server action keeps. *)
Lemma handleFileUpload_preserves (P : Store -> Prop)
    (f : jsstring -> list jsstring -> M nat) (pid : jsstring)
    (file : option jsstring) :
  (forall p ks, preserves P (f p ks)) ->
  preserves P (Client.handleFileUpload f pid file).
Proof.
  intros Hf. destruct file as [text|]; [|apply preserves_ret].
  unfold Client.handleFileUpload.
  repeat (apply preserves_bind; [apply preserves_emit | intros _]).
  apply preserves_try_finally.
  - apply preserves_try_catch.
    + cbv zeta. destruct (length (normalize text) =? 0).
      * apply preserves_bind; [apply preserves_emit | intros _].
        apply preserves_emit.
      * apply preserves_bind; [apply preserves_emit | intros _].
        apply preserves_bind.
        -- apply preserves_for_loop. intros i a.
           unfold Client.upload_batch.
           apply preserves_bind; [apply Hf | intros r].
           repeat (apply preserves_bind; [apply preserves_emit | intros _]).
           apply preserves_ret.
        -- intros n.
           apply preserves_bind; [apply preserves_emit | intros _].
           apply preserves_emit.
    + intros e. destruct (read_message e); [apply preserves_emit|].
      now intros h s.
  - repeat (apply preserves_bind; [apply preserves_emit | intros _]).
    apply preserves_emit.
Qed.

(** X16.  Identifiers stay unique.  If the rows have pairwise different
    identifiers, all below the counter, then they still do after any of the
    card actions ([addCardsBatch], [addCards], [deleteCard],
    [deleteAllCards]) and after a whole upload, in either build, whoever
    calls and whatever the outcome. *)
Theorem X16_identifiers_stay_unique
    (h : Host) (s : State) (Hwf : store_wf (db s)) :
  (forall pid keys,
      store_wf (db (snd (Postgres.addCardsBatch pid keys h s)))
      /\ store_wf (db (snd (D1.addCardsBatch pid keys h s))))
  /\ (forall pid raw,
         store_wf (db (snd (Postgres.addCards pid raw h s)))
         /\ store_wf (db (snd (D1.addCards pid raw h s))))
  /\ (forall cardId, store_wf (db (snd (deleteCard cardId h s))))
  /\ (forall pid, store_wf (db (snd (D1.deleteAllCards pid h s))))
  /\ (forall pid file,
         store_wf (db (snd (Client.handleFileUpload Postgres.addCardsBatch
                              pid file h s)))
         /\ store_wf (db (snd (Client.handleFileUpload D1.addCardsBatch
                                 pid file h s)))).
Proof.
  split; [intros; now apply store_wf_after_batch|].
  split.
  { intros pid raw. destruct (addCards_as_batch h s pid raw) as [-> ->].
    now apply store_wf_after_batch. }
  destruct (is_admin h) eqn:Hadm.
  - split; [|split].
    + intros cardId. rewrite deleteCard_unfold by exact Hadm. cbv zeta.
      destruct (find _ _) as [c|]; [|exact Hwf].
      destruct (used c); [exact Hwf|].
      destruct (match reservedAt c with Some _ => _ | None => _ end);
        [exact Hwf|].
      eapply store_wf_filter; [exact Hwf | reflexivity | reflexivity].
    + intros pid. rewrite deleteAllCards_unfold by exact Hadm.
      eapply store_wf_filter; [exact Hwf | reflexivity | reflexivity].
    + intros pid file.
      split; apply handleFileUpload_preserves; try exact Hwf;
        intros p ks h0 s0 H0; now apply store_wf_after_batch.
  - destruct (unauthorized_everywhere h s Hadm) as (Hb & _ & Hd & Ha & _).
    split; [intros; now rewrite Hd|]. split; [intros; now rewrite Ha|].
    intros pid file.
    split; apply handleFileUpload_preserves; try exact Hwf;
      intros p ks h0 s0 H0; now apply store_wf_after_batch.
Qed.

Lemma X16_witness :
  store_wf (db (state_of [row 3 "p1" "a" None None;
                          row 1 "p2" "b" None None] 4 false))
  /\ store_wf
       (db (snd (D1.addCardsBatch (js "p1") [js "x"; js "x"] alice
                   (state_of [row 3 "p1" "a" None None;
                              row 1 "p2" "b" None None] 4 false)))).
Proof.
  assert (H : store_wf (db (state_of [row 3 "p1" "a" None None;
                                      row 1 "p2" "b" None None] 4 false))).
  { split.
    - cbn. repeat constructor; cbn; intuition discriminate.
    - intros c [<-|[<-|[]]]; cbn; lia. }
  split; [exact H|].
  exact (proj2 (proj1 (X16_identifiers_stay_unique alice _ H)
                  (js "p1") [js "x"; js "x"])).
Defined.

Lemma find_split (A : Type) (f : A -> bool) (l : list A) (x : A) :
  find f l = Some x ->
  exists l1 l2,
    l = l1 ++ x :: l2 /\ f x = true /\ filter (fun y => negb (f y)) l1 = l1.
Proof.
  induction l as [|y l IH]; simpl; [discriminate|].
  destruct (f y) eqn:E.
  - intros [= <-]. now exists [], l.
  - intros H. destruct (IH H) as (l1 & l2 & -> & Hx & Hl1).
    exists (y :: l1), l2. simpl. rewrite E. simpl. rewrite Hl1. now repeat split.
Qed.

(** X17.  With unique identifiers a successful [deleteCard] removes one row
    and only one: the row it looked up.  The rows before it and after it
    stay, in order, and the number of rows goes down by exactly one. *)
Theorem X17_deleteCard_removes_exactly_one_row
    (h : Host) (s : State) (cardId : Z) (c : Card)
    (Hadm : is_admin h = true) (Hwf : store_wf (db s))
    (Hfound : find (fun r => Z.eqb (id r) cardId) (cards (db s)) = Some c)
    (Hfree : used c = false)
    (Hres : forall t, reservedAt c = Some t ->
                      (t <= clock_ms h - 60 * 1000)%Z) :
  exists s' before after,
    deleteCard cardId h s = (Return tt, s')
    /\ cards (db s) = before ++ c :: after
    /\ cards (db s') = before ++ after
    /\ length (cards (db s')) + 1 = length (cards (db s)).
Proof.
  rewrite deleteCard_unfold by exact Hadm. rewrite Hfound. cbv zeta.
  rewrite Hfree.
  replace (match reservedAt c with
           | Some t => (t >? clock_ms h - 60 * 1000)%Z
           | None => false
           end) with false.
  2:{ destruct (reservedAt c) as [t|]; [|reflexivity].
      specialize (Hres t eq_refl). symmetry.
      rewrite Z.gtb_ltb. apply Z.ltb_ge. exact Hres. }
  destruct (find_split _ _ _ _ Hfound) as (l1 & l2 & Hl & Hc & Hl1).
  apply Z.eqb_eq in Hc.
  eexists. exists l1, l2. split; [reflexivity|]. cbn [db cards].
  destruct Hwf as [Hnd _]. rewrite Hl in Hnd |- *.
  rewrite map_app in Hnd. cbn [map] in Hnd.
  apply NoDup_remove_2 in Hnd.
  assert (Hl2 : filter (fun r => negb (Z.eqb (id r) cardId)) l2 = l2).
  { apply forallb_filter_id. apply forallb_forall. intros r Hr.
    apply negb_true_iff, Z.eqb_neq. intros E. apply Hnd.
    apply in_or_app. right. apply in_map_iff. exists r. split; [lia|exact Hr]. }
  rewrite filter_app. cbn [filter]. rewrite Hl1, Hl2.
  replace (id c =? cardId)%Z with true by (symmetry; now apply Z.eqb_eq).
  cbn [negb]. repeat split. rewrite !length_app. simpl. lia.
Qed.

Lemma X17_witness :
  is_admin alice = true
  /\ exists s',
       deleteCard 2 alice
         (state_of [row 1 "p1" "a" None None; row 2 "p1" "b" None None;
                    row 3 "p1" "b" None None] 4 false)
       = (Return tt, s')
       /\ cards (db s')
          = [row 1 "p1" "a" None None; row 3 "p1" "b" None None].
Proof.
  split; [reflexivity|].
  destruct (X17_deleteCard_removes_exactly_one_row alice
              (state_of [row 1 "p1" "a" None None; row 2 "p1" "b" None None;
                         row 3 "p1" "b" None None] 4 false)
              2 (row 2 "p1" "b" None None) eq_refl)
    as (s' & before & after & Hrun & _ & _ & _).
  - split.
    + cbn. repeat constructor; cbn; intuition discriminate.
    + intros c [<-|[<-|[<-|[]]]]; cbn; lia.
  - reflexivity.
  - reflexivity.
  - intros t [=].
  - exists s'. split; [exact Hrun|].
    vm_compute in Hrun. now injection Hrun as <-.
Defined.

(* ================================================================== *)
(** * Further properties: cache invalidation and authorisation *)
(* ================================================================== *)



(** X19.  Who gets past [checkAdmin]: exactly the callers with a non-empty
    handle whose lower-case form is an entry of the lower-cased allow-list.
    Everyone else gets [Unauthorized]; there is no third outcome, and the
    check itself never changes the state. *)
Theorem X19_who_passes_checkAdmin (h : Host) (s : State) :
  snd (checkAdmin h s) = s
  /\ (fst (checkAdmin h s) = Return tt
      \/ fst (checkAdmin h s) = Throw Unauthorized)
  /\ (fst (checkAdmin h s) = Return tt <->
      exists name,
        handle h = Some name /\ name <> [] /\ allow_listed h name).
Proof.
  rewrite checkAdmin_spec. cbn [fst snd]. split; [reflexivity|].
  split; [destruct (is_admin h); auto|].
  unfold is_admin, allow_listed. split.
  - destruct (handle h) as [name|]; [|discriminate].
    destruct (truthy name) eqn:T; [|discriminate].
    destruct (includes _ _) eqn:I; [|discriminate].
    intros _. exists name. split; [reflexivity|].
    split; [now apply truthy_nonempty | now apply includes_In].
  - intros (name & -> & Hne & Hin).
    apply truthy_nonempty in Hne. apply includes_In in Hin.
    now rewrite Hne, Hin.
Qed.

Lemma X19_witness :
  fst (checkAdmin alice empty_state) = Return tt.
Proof.
  apply (proj2 (proj2 (X19_who_passes_checkAdmin alice empty_state))).
  exists (js "Alice"). split; [reflexivity|]. split; [discriminate|].
  unfold allow_listed. vm_compute. right. now left.
Defined.

(* ================================================================== *)
(** * Further properties: [saveShopName] *)
(* ================================================================== *)

(** X20.  The checks of [saveShopName], whatever the settings storage
    does.  A caller who is not an administrator is refused before the name
    is looked at.  For an administrator, a name that is blank after trimming
    is rejected as empty and a name of more than 64 UTF-16 code units after
    trimming is rejected as too long, both without any call to storage and
    with the state as it was; white space around the name does not count
    towards the 64.  A name of 1 to 64 code units after trimming is never
    rejected: the call either saves and invalidates "/" and "/admin", or
    fails with a storage error and invalidates nothing; card storage is
    never touched. *)
Theorem X20_saveShopName_checks
    (Storage : Type)
    (setSetting : jsstring -> jsstring -> Storage
                  -> option Settings.CaughtError * Storage)
    (create : Storage -> option Settings.CaughtError * Storage)
    (rawName : jsstring) (h : Host) (s : State) (t : Storage) :
  let run := Settings.saveShopName setSetting create rawName h s t in
  (is_admin h = false -> run = (Settings.Refused Unauthorized, s, t))
  /\ (is_admin h = true -> all_white rawName = true ->
      run = (Settings.Invalid "Shop name cannot be empty", s, t))
  /\ (is_admin h = true -> 64 < length (trim rawName) ->
      run = (Settings.Invalid "Shop name is too long", s, t))
  /\ (is_admin h = true -> 0 < length (trim rawName) <= 64 ->
      (exists t',
          run = (Settings.Saved,
                 {| db := db s; stmts := stmts s;
                    revalidated := revalidated s ++ [js "/"; js "/admin"];
                    ui := ui s |}, t'))
      \/ (exists error t', run = (Settings.Failed error, s, t'))).
Proof.
  intros run. unfold run, Settings.saveShopName.
  rewrite checkAdmin_spec. repeat split.
  - now intros ->.
  - intros -> Hw. apply trim_nil_iff in Hw. now rewrite Hw.
  - intros -> Hlen. cbv zeta.
    destruct (trim rawName) as [|c name] eqn:E; [simpl in Hlen; lia|].
    cbn [truthy negb]. apply Nat.ltb_lt in Hlen. now rewrite Hlen.
  - intros -> [Hpos Hlen]. cbv zeta.
    destruct (trim rawName) as [|c name] eqn:E; [simpl in Hpos; lia|].
    cbn [truthy negb].
    replace (64 <? length (c :: name)) with false
      by (symmetry; apply Nat.ltb_ge; exact Hlen).
    destruct (Settings.set_shop_name setSetting create (c :: name) t)
      as [[error|] t'].
    + right. now exists error, t'.
    + left. exists t'. unfold revalidatePath, bind. cbn.
      now rewrite <- app_assoc.
Qed.

(** A name of exactly 64 code units, padded with spaces, is saved; with the
    settings table missing at first, the table is created and the name is
    saved at the second attempt. *)
Lemma X20_witness :
  is_admin alice = true
  /\ length (trim (js "  " ++ repeat 120%N 64 ++ js " ")) = 64
  /\ fst (Settings.saveShopName Settings.demo_setSetting Settings.demo_create
            (js "  " ++ repeat 120%N 64 ++ js " ") alice empty_state None)
     = (Settings.Saved,
        {| db := db empty_state; stmts := [];
           revalidated := [js "/"; js "/admin"]; ui := [] |})
  /\ snd (Settings.saveShopName Settings.demo_setSetting Settings.demo_create
            (js "  " ++ repeat 120%N 64 ++ js " ") alice empty_state None)
     = Some [(js "shop_name", repeat 120%N 64)]
  /\ Settings.saveShopName Settings.demo_setSetting Settings.demo_create
       (repeat 120%N 65) alice empty_state None
     = (Settings.Invalid "Shop name is too long", empty_state, None).
Proof.
  split; [reflexivity|]. split; [vm_compute; reflexivity|].
  split; [vm_compute; reflexivity|]. split; [vm_compute; reflexivity|].
  apply (proj1 (proj2 (proj2
          (X20_saveShopName_checks _ Settings.demo_setSetting
             Settings.demo_create (repeat 120%N 65) alice empty_state
             None)))).
  - reflexivity.
  - vm_compute. lia.
Defined.

(** X21.  [deleteCard] reads before it writes.  A caller who is not an
    administrator causes no statement at all; for an administrator there is
    always exactly one lookup of the card, followed by one delete statement
    when the call succeeds and by nothing when it refuses. *)
Theorem X21_deleteCard_statements (h : Host) (s : State) (cardId : Z) :
  stmts (snd (deleteCard cardId h s))
  = stmts s
    ++ (if is_admin h
        then SelectCard cardId
             :: match fst (deleteCard cardId h s) with
                | Return _ => [DeleteCard cardId]
                | _ => []
                end
        else []).
Proof.
  destruct (is_admin h) eqn:Hadm.
  - rewrite deleteCard_unfold by exact Hadm. cbv zeta.
    destruct (find _ _) as [c|]; [|reflexivity].
    destruct (used c); [reflexivity|].
    destruct (match reservedAt c with Some _ => _ | None => _ end);
      [reflexivity|].
    cbn. now rewrite <- app_assoc.
  - destruct (unauthorized_everywhere h s Hadm) as (_ & _ & -> & _).
    cbn. now rewrite app_nil_r.
Qed.
